(** * GPU node: session orchestration and frame pipeline

  A shallow embedding of the Python sources of the node
  ([frame_processor.py], [swap_engine.py], [webrtc_server.py],
  [signaling_client.py], [config.py], [main.py]) and the properties
  of the specification checked against it.

  Conventions of the embedding:
  - a numpy array is a shape together with its flattened samples,
    tagged with the dtype;
  - a Python exception is a value of [exn]; a call that may raise
    returns a [res];
  - the external collaborators (face analyzer, detectors, swapper,
    transport negotiation, HTTP client, [cv2.resize]) are oracles
    collected in [Env]; every oracle call consumes one tick of the
    [World], so that a collaborator may answer differently at each
    call, and is recorded in the world's trace. *)

From Stdlib Require Import ZArith QArith Qround List String Lia.
From stdpp Require Import gmap strings list fin_maps.

Set Warnings "-register-all".

Local Open Scope Z_scope.

(** ** Exceptions *)

Inductive exn : Type :=
| cv2_error
| IndexError
| ValueError
| AttributeError
| TypeError
| ClientError
| MediaStreamError
| InvalidStateError
| CollaboratorError (code : nat)
| HTTPException (status_code : nat) (detail : string).

Inductive res (A : Type) : Type :=
| Ok (a : A)
| Raise (e : exn).
Arguments Ok {A} a.
Arguments Raise {A} e.

Definition is_ok {A} (r : res A) : bool :=
match r with Ok _ => true | Raise _ => false end.

(** ** numpy arrays *)

Module np.

(** Flattened samples of an array, by dtype.  Floating-point samples
    are finite values, represented by rationals. *)
Inductive samples : Type :=
| U8 (l : list Z)
| I64 (l : list Z)
| F32 (l : list Q).

Record ndarray : Type := { shape : list nat; data : samples }.

Definition ndim (a : ndarray) : nat := length (shape a).

(** [a.size]: the product of the dimensions. *)
Definition size (a : ndarray) : nat := fold_right Nat.mul 1%nat (shape a).

Definition is_uint8 (a : ndarray) : bool :=
  match data a with U8 _ => true | _ => false end.

(** [np.zeros(shp, dtype=np.uint8)] *)
Definition zeros (shp : list nat) : ndarray :=
  {| shape := shp; data := U8 (repeat 0 (fold_right Nat.mul 1%nat shp)) |}.

Definition clipZ (lo hi z : Z) : Z := Z.min (Z.max z lo) hi.

Definition clipQ (lo hi q : Q) : Q :=
  if Qlt_le_dec q lo then lo else if Qlt_le_dec hi q then hi else q.

(** [np.clip(a, lo, hi)] with integer bounds: the dtype is kept. *)
Definition clip (a : ndarray) (lo hi : Z) : ndarray :=
  {| shape := shape a;
     data := match data a with
             | U8 l => U8 (map (clipZ lo hi) l)
             | I64 l => I64 (map (clipZ lo hi) l)
             | F32 l => F32 (map (clipQ (inject_Z lo) (inject_Z hi)) l)
             end |}.

(** Conversion of one sample to uint8: a float is truncated toward
    zero, an integer wraps around modulo 256. *)
Definition truncQ (q : Q) : Z := Z.quot (Qnum q) (Zpos (Qden q)).
Definition wrap8 (z : Z) : Z := z mod 256.

(** [a.astype(np.uint8)] *)
Definition astype_uint8 (a : ndarray) : ndarray :=
  {| shape := shape a;
     data := match data a with
             | U8 l => U8 l
             | I64 l => U8 (map wrap8 l)
             | F32 l => U8 (map (fun q => wrap8 (truncQ q)) l)
             end |}.

Definition byte_range (z : Z) : Prop := 0 <= z <= 255.

(** A well-formed uint8 array. *)
Definition uint8_array (a : ndarray) : Prop :=
  exists l, data a = U8 l /\ Forall byte_range l.

End np.

(** ** OpenCV colour conversions used by the node *)

Module cv2.
Import np.

Inductive color_code : Type := COLOR_GRAY2BGR | COLOR_BGRA2BGR.

Fixpoint gray2bgr {A} (l : list A) : list A :=
  match l with
  | [] => []
  | g :: l' => g :: g :: g :: gray2bgr l'
  end.

Fixpoint bgra2bgr {A} (l : list A) : list A :=
  match l with
  | b :: g :: r :: _ :: l' => b :: g :: r :: bgra2bgr l'
  | _ => []
  end.

Definition map_samples (f : forall A, list A -> list A) (s : samples)
  : samples :=
  match s with
  | U8 l => U8 (f Z l)
  | I64 l => I64 (f Z l)
  | F32 l => F32 (f Q l)
  end.

(** [cv2.cvtColor(src, code)].  OpenCV rejects an empty image, an
    unsupported depth (64-bit integers) and a channel count that
    does not fit the conversion code. *)
Definition cvtColor (src : ndarray) (code : color_code) : res ndarray :=
  if (size src =? 0)%nat then Raise cv2_error else
  match data src with
  | I64 _ => Raise cv2_error
  | _ =>
    match code, shape src with
    | COLOR_GRAY2BGR, [h; w]
    | COLOR_GRAY2BGR, [h; w; 1%nat] =>
        Ok {| shape := [h; w; 3%nat];
              data := map_samples (@gray2bgr) (data src) |}
    | COLOR_BGRA2BGR, [h; w; 4%nat] =>
        Ok {| shape := [h; w; 3%nat];
              data := map_samples (@bgra2bgr) (data src) |}
    | _, _ => Raise cv2_error
    end
  end.

End cv2.

(** ** JSON values exchanged with the orchestrator and the control surface *)

Inductive json : Type :=
| JNull
| JBool (b : bool)
| JNum (z : Z)
| JStr (s : string)
| JArr (l : list json)
| JObj (m : gmap string json).

(** Python truthiness of a decoded JSON value ([if x:], [not x]). *)
Definition truthy (j : json) : bool :=
  match j with
  | JNull => false
  | JBool b => b
  | JNum z => negb (z =? 0)
  | JStr s => negb (String.eqb s "")
  | JArr l => match l with [] => false | _ => true end
  | JObj m => negb (bool_decide (m = ∅))
  end.

(** ** Detected faces *)

(** The dictionary built by [detect_faces]: the analyzer path fills
    all four keys, the fallback paths only [bbox] and [det_score]. *)
Record Face : Type := {
  bbox : list Z;
  landmark : option (list Q);
  embedding : option (list Q);
  det_score : Q
}.

(** A face object as returned by the InsightFace analyzer. *)
Record AnalyzedFace : Type := {
  a_bbox : list Q;
  a_landmark_2d_106 : option (list Q);
  a_embedding : list Q;
  a_det_score : Q
}.

(** One row [detections[0, 0, i, :]] of the DNN detector output. *)
Record Detection : Type := {
  confidence : Q;
  box : Q * Q * Q * Q
}.

(** ** World, collaborators and the effect monad *)

Inductive Event : Type :=
| EvAnalyzerGet (frame : np.ndarray)
| EvDnnForward (frame : np.ndarray)
| EvHaarDetect (frame : np.ndarray)
| EvSwapperGet (target : np.ndarray) (target_face : Face)
               (source : np.ndarray) (source_face : Face)
| EvNegotiate (offer_sdp : json)
| EvHttpGet (url : string)
| EvHttpPost (url : string) (body : gmap string json)
| EvSleep (seconds : Z).

Record World : Type := {
  clock : Z;             (* seconds elapsed on the event loop *)
  tick : nat;            (* number of collaborator calls made so far *)
  trace : list Event     (* collaborator calls, oldest first *)
}.

(** The collaborators.  Each oracle receives the tick at which it is
    called. *)
Record Env : Type := {
  cv2_resize : np.ndarray -> nat * nat -> res np.ndarray;
  analyzer_get : nat -> np.ndarray -> res (list AnalyzedFace);
  dnn_forward : nat -> np.ndarray -> res (list Detection);
  haar_detect : nat -> np.ndarray -> res (list (Z * Z * Z * Z));
  swapper_get : nat -> np.ndarray -> Face -> np.ndarray -> Face
                -> res (option np.ndarray);
  pc_negotiate : nat -> json -> res string;
  http_get : nat -> string -> res (nat * json);
  http_post : nat -> string -> gmap string json -> res nat;
  gpu_memory_usage : nat -> json
}.

(** Computations over a state [S] that may raise; the state reached
    when the exception is raised is kept, as in Python. *)
Definition M (S A : Type) : Type := S -> res A * S.

#[export] Instance M_ret {S} : MRet (M S) := fun A a s => (Ok a, s).

#[export] Instance M_bind {S} : MBind (M S) := fun A B k m s =>
  match m s with
  | (Ok a, s') => k a s'
  | (Raise e, s') => (Raise e, s')
  end.

#[export] Instance res_ret : MRet res := fun A a => Ok a.

#[export] Instance res_bind : MBind res := fun A B k r =>
  match r with
  | Ok a => k a
  | Raise e => Raise e
  end.

Definition raise {S A} (e : exn) : M S A := fun s => (Raise e, s).

Definition lift_res {S A} (r : res A) : M S A := fun s => (r, s).

(** [try: m except Exception as e: h e] *)
Definition try_except {S A} (m : M S A) (h : exn -> M S A) : M S A :=
  fun s =>
    match m s with
    | (Ok a, s') => (Ok a, s')
    | (Raise e, s') => h e s'
    end.

Definition gets {S A} (f : S -> A) : M S A := fun s => (Ok (f s), s).

Definition modify {S} (f : S -> S) : M S unit := fun s => (Ok tt, f s).

(** A collaborator call: recorded in the trace, answered by the oracle
    at the current tick. *)
Definition call {A} (ev : Event) (oracle : nat -> res A) : M World A :=
  fun w =>
    (oracle (tick w),
     {| clock := clock w; tick := S (tick w); trace := trace w ++ [ev] |}).

(** [await asyncio.sleep(seconds)] *)
Definition sleep (seconds : Z) : M World unit :=
  fun w =>
    (Ok tt,
     {| clock := clock w + seconds; tick := tick w;
        trace := trace w ++ [EvSleep seconds] |}).

(** ** frame_processor.py *)

Module frame_processor.
Import np cv2.

Record FrameProcessor : Type := { target_size : option (nat * nat) }.

Definition preprocess_frame (env : Env) (self : FrameProcessor)
    (frame : ndarray) : res ndarray :=
  frame ← match target_size self with
          | Some sz => cv2_resize env frame sz
          | None => Ok frame
          end;
  if (ndim frame =? 2)%nat then cvtColor frame COLOR_GRAY2BGR
  else
    match shape frame !! 2%nat with
    | None => Raise IndexError
    | Some c =>
        if (c =? 4)%nat then cvtColor frame COLOR_BGRA2BGR else Ok frame
    end.

Definition black_frame : ndarray := zeros [480; 640; 3]%nat.

Definition postprocess_frame (frame : option ndarray) : ndarray :=
  match frame with
  | None => black_frame
  | Some frame =>
      if (size frame =? 0)%nat then black_frame
      else astype_uint8 (clip frame 0 255)
  end.

End frame_processor.

(** ** swap_engine.py *)

Module swap_engine.
Import np.

Record Swapper : Type := { has_get : bool }.

(** The engine after model loading: which of the analyzer, the DNN
    detector and the swapper are present. *)
Record SwapEngine : Type := {
  face_analyzer : bool;
  face_detector : bool;
  swapper : option Swapper
}.

(** The loop over the rows of the DNN output. *)
Fixpoint dnn_faces (h w : nat) (detections : list Detection) : list Face :=
  match detections with
  | [] => []
  | d :: rest =>
      if negb (Qle_bool (confidence d) (1 # 2)) then
        let '(x1, y1, x2, y2) := box d in
        let W := inject_Z (Z.of_nat w) in
        let H := inject_Z (Z.of_nat h) in
        {| bbox := [truncQ (x1 * W); truncQ (y1 * H);
                    truncQ (x2 * W); truncQ (y2 * H)];
           landmark := None; embedding := None;
           det_score := confidence d |} :: dnn_faces h w rest
      else dnn_faces h w rest
  end.

Definition analyzer_face (face : AnalyzedFace) : Face :=
  {| bbox := map truncQ (a_bbox face);
     landmark := a_landmark_2d_106 face;
     embedding := Some (a_embedding face);
     det_score := a_det_score face |}.

Definition haar_face (r : Z * Z * Z * Z) : Face :=
  let '(x, y, w, h) := r in
  {| bbox := [x; y; x + w; y + h];
     landmark := None; embedding := None; det_score := 1 |}.

Definition detect_faces (env : Env) (self : SwapEngine) (frame : ndarray)
    : M World (list Face) :=
  if face_analyzer self then
    faces ← call (EvAnalyzerGet frame) (fun t => analyzer_get env t frame);
    mret (map analyzer_face faces)
  else if face_detector self then
    match shape frame with
    | h :: w :: _ =>
        detections ← call (EvDnnForward frame)
                          (fun t => dnn_forward env t frame);
        mret (dnn_faces h w detections)
    | _ => raise ValueError
    end
  else
    faces_detected ← call (EvHaarDetect frame)
                          (fun t => haar_detect env t frame);
    mret (map haar_face faces_detected).

Definition _fallback_swap (source_frame target_frame : ndarray)
    (source_face target_face : Face) : ndarray := target_frame.

(** [source_faces[0]] after the emptiness test of [swap_face]. *)
Definition first_or_detect (env : Env) (self : SwapEngine)
    (given : option Face) (frame : ndarray) : M World (option Face) :=
  match given with
  | Some f => mret (Some f)
  | None => faces ← detect_faces env self frame; mret (head faces)
  end.

Definition swap_face (env : Env) (self : SwapEngine)
    (source_frame target_frame : ndarray)
    (source_face target_face : option Face) : M World (option ndarray) :=
  match swapper self with
  | None => mret (Some target_frame)
  | Some sw =>
      sf ← first_or_detect env self source_face source_frame;
      match sf with
      | None => mret (Some target_frame)
      | Some source_face =>
          tf ← first_or_detect env self target_face target_frame;
          match tf with
          | None => mret (Some target_frame)
          | Some target_face =>
              try_except
                (if has_get sw then
                   call (EvSwapperGet target_frame target_face
                                      source_frame source_face)
                        (fun t => swapper_get env t target_frame target_face
                                              source_frame source_face)
                 else
                   mret (Some (_fallback_swap source_frame target_frame
                                              source_face target_face)))
                (fun _ => mret (Some target_frame))
          end
      end
  end.

End swap_engine.

(** Running a world computation, or reading and updating an object,
    inside the state of that object paired with the world. *)
Definition on_world {S A} (m : M World A) : M (S * World) A :=
  fun st => let '(r, w') := m st.2 in (r, (st.1, w')).

Definition get_self {S A} (f : S -> A) : M (S * World) A :=
  gets (fun st => f st.1).

Definition set_self {S} (f : S -> S) : M (S * World) unit :=
  modify (fun st => (f st.1, st.2)).

(** ** webrtc_server.py *)

Module webrtc_server.
Import np frame_processor swap_engine.

(** A decoded video frame: timing metadata and the picture. *)
Record VideoFrame : Type := {
  pts : option Z;
  time_base : option Q;
  planes : ndarray
}.

(** [frame.to_ndarray(format="bgr24")]: the picture of the frame. *)
Definition to_ndarray (frame : VideoFrame) : ndarray := planes frame.

(** [VideoFrame.from_ndarray(img, format="bgr24")]: the array must be
    uint8 with three dimensions, the last one of extent 3; the new
    frame carries no timing metadata yet. *)
Definition from_ndarray (img : ndarray) : res VideoFrame :=
  if is_uint8 img then
    match shape img with
    | [_; _; 3%nat] =>
        Ok {| pts := None; time_base := None; planes := img |}
    | _ => Raise ValueError
    end
  else Raise ValueError.

Record ProcessedVideoTrack : Type := {
  track_swap_engine : SwapEngine;
  track_frame_processor : FrameProcessor;
  source_face : option Face;
  frame_count : nat
}.

(** [ProcessedVideoTrack(swap_engine, frame_processor, source_track)] *)
Definition new_track (eng : SwapEngine) (fp : FrameProcessor)
    : ProcessedVideoTrack :=
  {| track_swap_engine := eng; track_frame_processor := fp;
     source_face := None; frame_count := 0 |}.

Definition set_source_face (f : Face) (self : ProcessedVideoTrack)
    : ProcessedVideoTrack :=
  {| track_swap_engine := track_swap_engine self;
     track_frame_processor := track_frame_processor self;
     source_face := Some f; frame_count := frame_count self |}.

Definition incr_frame_count (self : ProcessedVideoTrack)
    : ProcessedVideoTrack :=
  {| track_swap_engine := track_swap_engine self;
     track_frame_processor := track_frame_processor self;
     source_face := source_face self;
     frame_count := S (frame_count self) |}.

(** The capture step of [recv]: runs only while no source face is
    stored, and stores the first face of the detector output. *)
Definition capture (env : Env) (img : ndarray)
    : M (ProcessedVideoTrack * World) unit :=
  sf ← get_self source_face;
  match sf with
  | Some _ => mret tt
  | None =>
      eng ← get_self track_swap_engine;
      faces ← on_world (detect_faces env eng img);
      match faces with
      | f :: _ => set_self (set_source_face f)
      | [] => mret tt
      end
  end.

(** The swap step of [recv]: an exception of [swap_face] is logged and
    the image is left as it was. *)
Definition swap_step (env : Env) (img : ndarray)
    : M (ProcessedVideoTrack * World) (option ndarray) :=
  sf ← get_self source_face;
  match sf with
  | None => mret (Some img)
  | Some f =>
      eng ← get_self track_swap_engine;
      try_except
        (on_world (swap_face env eng img img (Some f) None))
        (fun _ => mret (Some img))
  end.

(** [ProcessedVideoTrack.recv], for the frame [frame] delivered by the
    source track. *)
Definition recv (env : Env) (frame : VideoFrame)
    : M (ProcessedVideoTrack * World) VideoFrame :=
  let img := to_ndarray frame in
  fp ← get_self track_frame_processor;
  img ← lift_res (preprocess_frame env fp img);
  _ ← capture env img;
  img ← swap_step env img;
  let img := postprocess_frame img in
  new_frame ← lift_res (from_ndarray img);
  let new_frame := {| pts := pts frame; time_base := time_base frame;
                      planes := planes new_frame |} in
  _ ← set_self incr_frame_count;
  mret new_frame.

(** Feeding the frames of a list to [recv] one after the other; the
    result of every call is collected, and the track goes on after a
    call that raised. *)
Fixpoint recv_all (env : Env) (frames : list VideoFrame)
    (st : ProcessedVideoTrack * World)
    : list (res VideoFrame) * (ProcessedVideoTrack * World) :=
  match frames with
  | [] => ([], st)
  | frame :: rest =>
      let '(r, st') := recv env frame st in
      let '(rs, st'') := recv_all env rest st' in
      (r :: rs, st'')
  end.

Inductive ConnectionState : Type :=
| cs_new | cs_connecting | cs_connected | cs_disconnected
| cs_failed | cs_closed.

#[export] Instance ConnectionState_eq_dec : EqDecision ConnectionState.
Proof. solve_decision. Defined.

Record RTCPeerConnection : Type := {
  connectionState : ConnectionState;
  localDescription : option string
}.

(** The server: [pcs] is the set of peer-connection objects, keyed by
    object identity. *)
Record WebRTCServer : Type := {
  srv_swap_engine : SwapEngine;
  srv_frame_processor : FrameProcessor;
  pcs : gmap positive RTCPeerConnection
}.

Definition set_pcs (f : gmap positive RTCPeerConnection
                        -> gmap positive RTCPeerConnection)
    (self : WebRTCServer) : WebRTCServer :=
  {| srv_swap_engine := srv_swap_engine self;
     srv_frame_processor := srv_frame_processor self;
     pcs := f (pcs self) |}.

(** [WebRTCServer(swap_engine, frame_processor)] *)
Definition new_server (eng : SwapEngine) (fp : FrameProcessor)
    : WebRTCServer :=
  {| srv_swap_engine := eng; srv_frame_processor := fp; pcs := ∅ |}.

(** [create_peer_connection]: a new connection object is added to the
    set; its identity is returned. *)
Definition create_peer_connection : M (WebRTCServer * World) positive :=
  ps ← get_self pcs;
  let pc := fresh (dom ps) in
  _ ← set_self (set_pcs (insert pc {| connectionState := cs_new;
                                      localDescription := None |}));
  mret pc.

(** [handle_offer]: the remote description is set, the answer created
    and installed as local description (one transport negotiation),
    and the SDP of the local description returned. *)
Definition handle_offer (env : Env) (offer_sdp : json)
    : M (WebRTCServer * World) string :=
  pc ← create_peer_connection;
  answer ← on_world (call (EvNegotiate offer_sdp)
                          (fun t => pc_negotiate env t offer_sdp));
  _ ← set_self (set_pcs (alter (fun c =>
         {| connectionState := connectionState c;
            localDescription := Some answer |}) pc));
  mret answer.

(** The transport reports a new connection state for [pc]; the
    [connectionstatechange] handler closes and discards a connection
    that failed or closed. *)
Definition on_connectionstatechange (pc : positive)
    (state : ConnectionState) (self : WebRTCServer) : WebRTCServer :=
  match state with
  | cs_failed | cs_closed => set_pcs (delete pc) self
  | _ => set_pcs (alter (fun c =>
           {| connectionState := state;
              localDescription := localDescription c |}) pc) self
  end.


Definition get_active_connections (self : WebRTCServer) : nat :=
  length (filter (fun p => connectionState p.2 = cs_connected)
                 (map_to_list (pcs self))).

End webrtc_server.

(** ** config.py *)

Module config.

Record Config : Type := {
  model_type : string;
  orchestrator_url : option string;
  node_id : option string;
  health_check_interval : Z;
  max_sessions : Z;
  idle_timeout : Z
}.

(** The configuration read from an empty environment. *)
Definition from_env : Config :=
  {| model_type := "insightface";
     orchestrator_url := None;
     node_id := None;
     health_check_interval := 30;
     max_sessions := 1;
     idle_timeout := 300 |}.

End config.

(** ** signaling_client.py *)

Module signaling_client.

Record SignalingClient : Type := {
  orchestrator_url : option string;
  node_id : option string;
  session : bool          (* an [aiohttp.ClientSession] is open *)
}.

(** Truthiness of an optional string. *)
Definition truthy_str (o : option string) : bool :=
  match o with
  | Some s => negb (String.eqb s "")
  | None => false
  end.

(** [str(x)] inside an f-string, for an optional string. *)
Definition str_opt (o : option string) : string :=
  match o with Some s => s | None => "None" end.

Definition node_url (self : SignalingClient) (leaf : string) : string :=
  str_opt (orchestrator_url self) +:+ "/nodes/" +:+ str_opt (node_id self)
  +:+ "/" +:+ leaf.

(** [SignalingClient()] followed by [start()]. *)
Definition start (cfg : config.Config) : SignalingClient :=
  {| orchestrator_url := config.orchestrator_url cfg;
     node_id := config.node_id cfg;
     session := truthy_str (config.orchestrator_url cfg) |}.

Definition enabled (self : SignalingClient) : bool :=
  session self && truthy_str (orchestrator_url self).

Definition send_health_update (env : Env) (self : SignalingClient)
    (health_data : gmap string json) : M World bool :=
  if negb (enabled self) then mret false
  else
    let url := node_url self "health" in
    try_except
      (status ← call (EvHttpPost url health_data)
                     (fun t => http_post env t url health_data);
       mret (status =? 200)%nat)
      (fun _ => mret false).

Definition receive_offer (env : Env) (self : SignalingClient)
    : M World (option json) :=
  if negb (enabled self) then mret None
  else
    let url := node_url self "offers" in
    try_except
      (response ← call (EvHttpGet url) (fun t => http_get env t url);
       let '(status, data) := response in
       if (status =? 200)%nat then
         mret (if truthy data then Some data else None)
       else mret None)
      (fun _ => mret None).

(** The body posted by [send_answer]. *)
Definition answer_body (answer_sdp : string) (session_id : json)
    : gmap string json :=
  <["session_id" := session_id]> (<["answer" := JStr answer_sdp]> ∅).

Definition send_answer (env : Env) (self : SignalingClient)
    (answer_sdp : string) (session_id : json) : M World bool :=
  if negb (enabled self) then mret false
  else
    let url := node_url self "answers" in
    let body := answer_body answer_sdp session_id in
    try_except
      (status ← call (EvHttpPost url body)
                     (fun t => http_post env t url body);
       mret (status =? 200)%nat)
      (fun _ => mret false).

End signaling_client.

(** ** main.py *)

Module main.
Import webrtc_server signaling_client.

(** The module globals and the world. *)
Record Node : Type := {
  the_webrtc_server : option WebRTCServer;
  the_signaling_client : option SignalingClient;
  world : World
}.

(** A method of the global server object. *)
Definition with_server {A} (m : M (WebRTCServer * World) A) : M Node A :=
  fun n =>
    match the_webrtc_server n with
    | None => (Raise AttributeError, n)
    | Some srv =>
        let '(r, (srv', w')) := m (srv, world n) in
        (r, {| the_webrtc_server := Some srv';
               the_signaling_client := the_signaling_client n;
               world := w' |})
    end.

Definition in_world {A} (m : M World A) : M Node A :=
  fun n =>
    let '(r, w') := m (world n) in
    (r, {| the_webrtc_server := the_webrtc_server n;
           the_signaling_client := the_signaling_client n;
           world := w' |}).

(** [d.get(key)] on a decoded JSON value: only a dictionary has the
    method. *)
Definition json_get {S} (d : json) (key : string) : M S json :=
  match d with
  | JObj m => mret (default JNull (m !! key))
  | _ => raise AttributeError
  end.

(** [str(e)] of a caught exception: a description of it, whose exact
    wording no property below depends on. *)
Definition str_exn (e : exn) : string :=
  match e with
  | cv2_error => "cv2.error"
  | IndexError => "IndexError"
  | ValueError => "ValueError"
  | AttributeError => "AttributeError"
  | TypeError => "TypeError"
  | ClientError => "ClientError"
  | MediaStreamError => "MediaStreamError"
  | InvalidStateError => "InvalidStateError"
  | CollaboratorError _ => "error"
  | HTTPException _ detail => detail
  end.

(** The response of the offer endpoint. *)
Definition offer_response (answer_sdp : string) (session_id : json)
    : gmap string json :=
  <["answer" := JStr answer_sdp]> (<["session_id" := session_id]> ∅).

(** [POST /signaling/offer] *)
Definition handle_signaling_offer (env : Env)
    (offer_data : gmap string json) : M Node (gmap string json) :=
  try_except
    (srv ← gets the_webrtc_server;
     match srv with
     | None => raise (HTTPException 503 "WebRTC server not initialized")
     | Some _ =>
         let offer_sdp := default JNull (offer_data !! "offer") in
         if negb (truthy offer_sdp) then
           raise (HTTPException 400 "Missing offer SDP")
         else
           answer_sdp ← with_server (handle_offer env offer_sdp);
           mret (offer_response answer_sdp
                   (default (JStr "unknown") (offer_data !! "session_id")))
     end)
    (fun e => raise (HTTPException 500 (str_exn e))).

(** [get_active_connections() if webrtc_server else 0] *)
Definition active_sessions (n : Node) : nat :=
  match the_webrtc_server n with
  | Some srv => get_active_connections srv
  | None => 0%nat
  end.

Definition health_data (env : Env) (n : Node) : gmap string json :=
  <["status" := JStr "ok"]>
    (<["gpu_memory" := gpu_memory_usage env (tick (world n))]>
       (<["active_sessions" := JNum (Z.of_nat (active_sessions n))]> ∅)).

(** One iteration of the loop of [health_reporting_task]. *)
Definition health_reporting_step (env : Env) (cfg : config.Config)
    : M Node unit :=
  try_except
    (_ ← in_world (sleep (config.health_check_interval cfg));
     client ← gets the_signaling_client;
     match client with
     | Some c =>
         if truthy_str (orchestrator_url c) then
           data ← gets (health_data env);
           _ ← in_world (send_health_update env c data);
           mret tt
         else mret tt
     | None => mret tt
     end)
    (fun _ => mret tt).

(** One iteration of the loop of [signaling_polling_task]. *)
Definition signaling_polling_step (env : Env) : M Node unit :=
  try_except
    (_ ← in_world (sleep 1);
     client ← gets the_signaling_client;
     match client with
     | None => mret tt
     | Some c =>
         offer ← in_world (receive_offer env c);
         srv ← gets the_webrtc_server;
         match offer, srv with
         | Some offer, Some _ =>
             offer_sdp ← json_get offer "offer";
             session_id ← json_get offer "session_id";
             if truthy offer_sdp then
               answer_sdp ← with_server (handle_offer env offer_sdp);
               _ ← in_world (send_answer env c answer_sdp session_id);
               mret tt
             else mret tt
         | _, _ => mret tt
         end
     end)
    (fun _ => mret tt).

(** [n] iterations of a background loop. *)
Fixpoint iterate (n : nat) (step : M Node unit) (st : Node) : Node :=
  match n with
  | O => st
  | S n' => iterate n' step (step st).2
  end.

End main.

(** * Specification-side definitions and sample data *)

Import np cv2 frame_processor swap_engine webrtc_server
       signaling_client main.

(** ** Quantization, pictures and the stages of [recv] *)

(** What the specification asks of one output sample: the input
    sample brought into the display range, as an integer. *)
Definition quantized_int (z z' : Z) : Prop :=
  z' = Z.max 0 (Z.min z 255).

Definition quantized_float (q : Q) (z' : Z) : Prop :=
  z' = Z.max 0 (Z.min (Qfloor q) 255).

Ltac unfold_monad :=
  unfold mbind, M_bind, res_bind, mret, M_ret, res_ret, get_self, set_self,
         gets, modify, lift_res, on_world, try_except, raise, call in *.

(** A picture as [to_ndarray(format="bgr24")] delivers it. *)
Definition bgr24_picture (a : ndarray) : Prop :=
  uint8_array a /\ (exists h w, shape a = [h; w; 3%nat]) /\ size a <> 0%nat.

Definition detect_event (eng : SwapEngine) (img : ndarray) : Event :=
  if face_analyzer eng then EvAnalyzerGet img
  else if face_detector eng then EvDnnForward img
  else EvHaarDetect img.

(** The last stage of [recv]: postprocess, rebuild the frame, copy
    the timing metadata, count the frame. *)
Definition finish (frame : VideoFrame) (o : option ndarray)
    (st : ProcessedVideoTrack * World)
    : res VideoFrame * (ProcessedVideoTrack * World) :=
  match from_ndarray (postprocess_frame o) with
  | Raise e => (Raise e, st)
  | Ok nf =>
      (Ok {| pts := pts frame; time_base := time_base frame;
             planes := planes nf |},
       (incr_frame_count st.1, st.2))
  end.

(** ** Sample frames and collaborators *)

Definition sample_picture : ndarray :=
  {| shape := [1; 2; 3]%nat; data := U8 [10; 20; 30; 40; 50; 60] |}.

Definition sample_frame : VideoFrame :=
  {| pts := Some 3000; time_base := Some (1 # 90000)%Q;
     planes := sample_picture |}.

Definition second_frame : VideoFrame :=
  {| pts := Some 6000; time_base := Some (1 # 90000)%Q;
     planes := {| shape := [1; 1; 3]%nat; data := U8 [7; 8; 9] |} |}.

Definition face_a : AnalyzedFace :=
  {| a_bbox := [(21 # 2)%Q; (4 # 1)%Q; (50 # 1)%Q; (60 # 1)%Q];
     a_landmark_2d_106 := None; a_embedding := [(1 # 3)%Q];
     a_det_score := (3 # 5)%Q |}.

Definition face_b : AnalyzedFace :=
  {| a_bbox := [(70 # 1)%Q; (5 # 1)%Q; (90 # 1)%Q; (40 # 1)%Q];
     a_landmark_2d_106 := None; a_embedding := [(2 # 3)%Q];
     a_det_score := (9 # 10)%Q |}.

(** Collaborators that answer the same at every call: the analyzer
    finds [faces], the swapper answers [swapped], the negotiation
    yields [answer], the offer poll returns [polled]. *)
Definition constant_env (faces : list AnalyzedFace)
    (swapped : res (option ndarray)) (answer : res string)
    (polled : res (nat * json)) : Env :=
  {| cv2_resize := fun a _ => Ok a;
     analyzer_get := fun _ _ => Ok faces;
     dnn_forward := fun _ _ => Ok [];
     haar_detect := fun _ _ => Ok [];
     swapper_get := fun _ _ _ _ _ => swapped;
     pc_negotiate := fun _ _ => answer;
     http_get := fun _ _ => polled;
     http_post := fun _ _ _ => Ok 200%nat;
     gpu_memory_usage := fun _ => JObj ∅ |}.

Definition quiet_env : Env :=
  constant_env [] (Raise (CollaboratorError 1)) (Ok "v=0 answer")
               (Ok (200%nat, JNull)).

Definition insightface_engine : SwapEngine :=
  {| face_analyzer := true; face_detector := false;
     swapper := Some {| has_get := true |} |}.

Definition plain_processor : FrameProcessor := {| target_size := None |}.

Definition initial_world : World := {| clock := 0; tick := 0; trace := [] |}.

Definition fresh_track : ProcessedVideoTrack :=
  new_track insightface_engine plain_processor.

(** ** Best candidate, as the specification words it *)

(** Highest score wins; a later face replaces the best one so far only
    when its score is strictly higher, so that ties go to the face
    detected first. *)
Fixpoint spec_best_from (best : Face) (rest : list Face) : Face :=
  match rest with
  | [] => best
  | f :: rest' =>
      if negb (Qle_bool (det_score f) (det_score best))
      then spec_best_from f rest'
      else spec_best_from best rest'
  end.

Definition spec_best_candidate (faces : list Face) : option Face :=
  match faces with
  | [] => None
  | f :: rest => Some (spec_best_from f rest)
  end.

(** ** Swap failures *)

(** The swapper raises at every call. *)
Definition swapper_always_raises (env : Env) : Prop :=
  forall t tgt tf src sf, exists e, swapper_get env t tgt tf src sf = Raise e.

(** The track of the samples once it holds a source face. *)
Definition cached_track : ProcessedVideoTrack :=
  set_source_face (analyzer_face face_a) fresh_track.

Definition failing_detector_env : Env :=
  {| cv2_resize := fun a _ => Ok a;
     analyzer_get := fun _ _ => Raise (CollaboratorError 2);
     dnn_forward := fun _ _ => Ok [];
     haar_detect := fun _ _ => Ok [];
     swapper_get := fun _ _ _ _ _ => Ok None;
     pc_negotiate := fun _ _ => Ok "a";
     http_get := fun _ _ => Ok (200%nat, JNull);
     http_post := fun _ _ _ => Ok 200%nat;
     gpu_memory_usage := fun _ => JObj ∅ |}.

(** ** Layout normalization, as the specification words it *)

Definition spec_expand_gray {A} (l : list A) : list A :=
  flat_map (fun g => [g; g; g]) l.

(** The samples grouped pixel by pixel, for four channels. *)
Fixpoint pixels4 {A} (l : list A) : list (list A) :=
  match l with
  | b :: g :: r :: a :: l' => [b; g; r; a] :: pixels4 l'
  | _ => []
  end.

Definition spec_drop_fourth {A} (l : list A) : list A :=
  concat (map (take 3) (pixels4 l)).

(** Single channel to three channels, four channels to three channels,
    nothing otherwise. *)
Definition spec_normalize_layout (a : ndarray) : ndarray :=
  match shape a with
  | [h; w] =>
      {| shape := [h; w; 3%nat];
         data := map_samples (@spec_expand_gray) (data a) |}
  | [h; w; 4%nat] =>
      {| shape := [h; w; 3%nat];
         data := map_samples (@spec_drop_fourth) (data a) |}
  | _ => a
  end.

(** A non-empty uint8 picture with one, three or four channels. *)
Definition uint8_picture (a : ndarray) : Prop :=
  uint8_array a /\ size a <> 0%nat /\
  exists h w, shape a = [h; w] \/ shape a = [h; w; 3%nat]
              \/ shape a = [h; w; 4%nat].

Definition gray_frame : VideoFrame :=
  {| pts := Some 9000; time_base := Some (1 # 90000)%Q;
     planes := {| shape := [1; 2]%nat; data := U8 [5; 6] |} |}.

Definition bgra_frame : VideoFrame :=
  {| pts := Some 12000; time_base := Some (1 # 90000)%Q;
     planes := {| shape := [1; 1; 4]%nat; data := U8 [1; 2; 3; 255] |} |}.

(** ** Sessions, nodes and admission attempts *)

(** A session in a non-terminal state: its connection neither failed
    nor closed. *)
Definition non_terminal (p : positive * RTCPeerConnection) : Prop :=
  connectionState p.2 <> cs_failed /\ connectionState p.2 <> cs_closed.

#[export] Instance non_terminal_dec p : Decision (non_terminal p).
Proof. unfold non_terminal. apply _. Defined.

Definition non_terminal_sessions (self : WebRTCServer) : nat :=
  length (filter non_terminal (map_to_list (pcs self))).

Definition node_sessions (n : Node) : nat :=
  match the_webrtc_server n with
  | Some srv => non_terminal_sessions srv
  | None => 0%nat
  end.

Definition new_pc : RTCPeerConnection :=
  {| connectionState := cs_new; localDescription := None |}.

Definition with_answer (answer : string) (c : RTCPeerConnection)
    : RTCPeerConnection :=
  {| connectionState := connectionState c; localDescription := Some answer |}.

Definition negotiated (offer_sdp : json) (w : World) : World :=
  {| clock := clock w; tick := S (tick w);
     trace := trace w ++ [EvNegotiate offer_sdp] |}.

Definition with_world (n : Node) (w : World) : Node :=
  {| the_webrtc_server := the_webrtc_server n;
     the_signaling_client := the_signaling_client n;
     world := w |}.

Definition with_state (n : Node) (st : WebRTCServer * World) : Node :=
  {| the_webrtc_server := Some st.1;
     the_signaling_client := the_signaling_client n;
     world := st.2 |}.

Definition slept (seconds : Z) (w : World) : World :=
  {| clock := clock w + seconds; tick := tick w;
     trace := trace w ++ [EvSleep seconds] |}.

Definition initial_node (client : option SignalingClient) : Node :=
  {| the_webrtc_server := Some (new_server insightface_engine plain_processor);
     the_signaling_client := client;
     world := initial_world |}.

Definition orchestrated_client : SignalingClient :=
  {| orchestrator_url := Some "http://orchestrator";
     node_id := Some "node-1"; session := true |}.

Definition offer_s1 : gmap string json :=
  <["session_id" := JStr "s1"]> (<["offer" := JStr "v=0 offer"]> ∅).

(** An admission attempt, through the push path (an offer submission
    with its body) or the pull path (one iteration of the poll loop). *)
Inductive admission : Type :=
| PushOffer (offer_data : gmap string json)
| PollOffer.

Definition attempt (env : Env) (a : admission) (n : Node) : Node :=
  match a with
  | PushOffer offer_data => (handle_signaling_offer env offer_data n).2
  | PollOffer => (signaling_polling_step env n).2
  end.

Fixpoint attempt_all (env : Env) (l : list admission) (n : Node) : Node :=
  match l with
  | [] => n
  | a :: l' => attempt_all env l' (attempt env a n)
  end.

(** The offer SDP found in a body, if it holds one. *)
Definition body_sdp (body : gmap string json) : option json :=
  let offer_sdp := default JNull (body !! "offer") in
  if truthy offer_sdp then Some offer_sdp else None.

(** The offer SDP that an admission attempt hands to the server in
    state [n], if any. *)
Definition offered_sdp (env : Env) (a : admission) (n : Node) : option json :=
  match the_webrtc_server n with
  | None => None
  | Some _ =>
      match a with
      | PushOffer offer_data => body_sdp offer_data
      | PollOffer =>
          match the_signaling_client n with
          | None => None
          | Some c =>
              match (receive_offer env c (world n)).1 with
              | Ok (Some (JObj m)) => body_sdp m
              | _ => None
              end
          end
      end
  end.

Definition count_offer (o : option json) : nat :=
  match o with Some _ => 1 | None => 0 end.

(** The number of offers handed to the server along a sequence of
    admission attempts. *)
Fixpoint offers_handed (env : Env) (l : list admission) (n : Node) : nat :=
  match l with
  | [] => 0
  | a :: l' =>
      (count_offer (offered_sdp env a n)
       + offers_handed env l' (attempt env a n))%nat
  end.

(** The identities of the sessions held by the node. *)
Definition node_pcs (n : Node) : gset positive :=
  match the_webrtc_server n with
  | Some srv => dom (pcs srv)
  | None => ∅
  end.

(** A node with one connected session, registered under identity 1. *)
Definition idle_node : Node :=
  {| the_webrtc_server :=
       Some {| srv_swap_engine := insightface_engine;
               srv_frame_processor := plain_processor;
               pcs := {[ 1%positive :=
                          {| connectionState := cs_connected;
                             localDescription := Some "v=0 answer" |} ]} |};
     the_signaling_client := Some orchestrated_client;
     world := initial_world |}.

(** * Further functions of the sources *)

(** ** signaling_client.py: [register_node] and [stop] *)

Definition json_of_opt (o : option string) : json :=
  match o with Some s => JStr s | None => JNull end.

(** The dictionary [{"node_id": self.node_id, **node_info}]: a key of
    [node_info] replaces the one written before it. *)
Definition register_body (self : SignalingClient)
    (node_info : gmap string json) : gmap string json :=
  node_info ∪ {[ "node_id" := json_of_opt (node_id self) ]}.

Definition register_url (self : SignalingClient) : string :=
  str_opt (orchestrator_url self) +:+ "/nodes/register".

Definition register_node (env : Env) (self : SignalingClient)
    (node_info : gmap string json) : M World bool :=
  if negb (enabled self) then mret false
  else
    let url := register_url self in
    let body := register_body self node_info in
    try_except
      (status ← call (EvHttpPost url body)
                     (fun t => http_post env t url body);
       mret (status =? 200)%nat)
      (fun _ => mret false).

(** [stop]: an open session is closed and forgotten. *)
Definition stop (self : SignalingClient) : SignalingClient :=
  {| orchestrator_url := orchestrator_url self;
     node_id := node_id self;
     session := false |}.

(** ** frame_processor.py: colour order and tensor layout *)

(** Red and blue exchanged in every pixel. *)
Fixpoint swap_rb {A} (l : list A) : list A :=
  match l with
  | r :: g :: b :: l' => b :: g :: r :: swap_rb l'
  | _ => []
  end.

(** [COLOR_RGB2BGR] and [COLOR_BGR2RGB] name the same conversion. *)
Inductive rb_code : Type := COLOR_RGB2BGR | COLOR_BGR2RGB.

(** [cv2.cvtColor(src, code)] for the two codes above: three channels
    are required, and an empty image or 64-bit integers are rejected. *)
Definition cvtColor_rb (src : ndarray) (code : rb_code) : res ndarray :=
  if (size src =? 0)%nat then Raise cv2_error else
  match data src with
  | I64 _ => Raise cv2_error
  | _ =>
    match shape src with
    | [h; w; 3%nat] =>
        Ok {| shape := [h; w; 3%nat];
              data := map_samples (@swap_rb) (data src) |}
    | _ => Raise cv2_error
    end
  end.

(** [len(frame.shape) == 3 and frame.shape[2] == 3] *)
Definition three_channels (frame : ndarray) : bool :=
  (ndim frame =? 3)%nat &&
  match shape frame !! 2%nat with
  | Some c => (c =? 3)%nat
  | None => false
  end.

Definition rgb_to_bgr (frame : ndarray) : res ndarray :=
  if three_channels frame then cvtColor_rb frame COLOR_RGB2BGR
  else Ok frame.

Definition bgr_to_rgb (frame : ndarray) : res ndarray :=
  if three_channels frame then cvtColor_rb frame COLOR_BGR2RGB
  else Ok frame.

(** The flattened samples read in another order: position [i] of the
    result holds the sample at position [f i]. *)
Definition gather {A} (d : A) (n : nat) (f : nat -> nat) (l : list A)
    : list A :=
  map (fun i => nth (f i) l d) (seq 0 n).

Definition gather_samples (n : nat) (f : nat -> nat) (s : samples)
    : samples :=
  match s with
  | U8 l => U8 (gather 0 n f l)
  | I64 l => I64 (gather 0 n f l)
  | F32 l => F32 (gather 0%Q n f l)
  end.

(** [np.transpose(frame, (2, 0, 1))] when the frame has three
    dimensions: element [c, y, x] of the result is element [y, x, c]
    of the frame. *)
Definition frame_to_tensor (frame : ndarray) : ndarray :=
  match shape frame with
  | [h; w; c] =>
      {| shape := [c; h; w];
         data := gather_samples (h * w * c)
                   (fun i => (i mod (h * w)) * c + i / (h * w))%nat
                   (data frame) |}
  | _ => frame
  end.

(** [np.transpose(tensor, (1, 2, 0))] when the tensor has three
    dimensions: element [y, x, c] of the result is element [c, y, x]
    of the tensor. *)
Definition tensor_to_frame (tensor : ndarray) : ndarray :=
  match shape tensor with
  | [c; h; w] =>
      {| shape := [h; w; c];
         data := gather_samples (c * h * w)
                   (fun j => (j mod c) * (h * w) + j / c)%nat
                   (data tensor) |}
  | _ => tensor
  end.

Definition samples_length (s : samples) : nat :=
  match s with U8 l | I64 l => length l | F32 l => length l end.

(** An array holds as many samples as its shape says. *)
Definition well_formed (a : ndarray) : Prop :=
  samples_length (data a) = size a.

(** ** swap_engine.py: model loading *)

(** Outcome of one loading step: done, [ImportError], or another
    exception. *)
Inductive load_outcome (A : Type) : Type :=
| Loaded (a : A)
| ImportFailed
| LoadFailed (e : exn).
Arguments Loaded {A} a.
Arguments ImportFailed {A}.
Arguments LoadFailed {A} e.

(** What loading finds on the machine. *)
Record Loader : Type := {
  cuda_available : bool;
  import_insightface : load_outcome unit;
  face_analysis : load_outcome unit;         (* [FaceAnalysis(...)] *)
  analyzer_prepare : load_outcome unit;      (* [face_analyzer.prepare] *)
  get_model : load_outcome (option Swapper); (* [model_zoo.get_model] *)
  swapper_prepare : load_outcome unit;       (* [swapper.prepare] *)
  fallback_files_exist : bool;
  readNetFromCaffe : res unit    (* reading the net, choosing the backend *)
}.

(** The engine as [__init__] leaves it before [_load_model]. *)
Definition unloaded_engine : SwapEngine :=
  {| face_analyzer := false; face_detector := false; swapper := None |}.

Definition set_face_detector (b : bool) (self : SwapEngine) : SwapEngine :=
  {| face_analyzer := face_analyzer self; face_detector := b;
     swapper := swapper self |}.

Definition set_face_analyzer (self : SwapEngine) : SwapEngine :=
  {| face_analyzer := true; face_detector := face_detector self;
     swapper := swapper self |}.

Definition set_swapper (s : option Swapper) (self : SwapEngine) : SwapEngine :=
  {| face_analyzer := face_analyzer self; face_detector := face_detector self;
     swapper := s |}.

Definition _load_fallback (ld : Loader) (self : SwapEngine) : res SwapEngine :=
  if fallback_files_exist ld then
    match readNetFromCaffe ld with
    | Ok _ => Ok (set_face_detector true self)
    | Raise e => Raise e
    end
  else Ok (set_face_detector false self).

(** One statement of the [try] block of [_load_insightface]: on
    [ImportError] the fallback is loaded on the engine as it is. *)
Definition load_step {A} (ld : Loader) (self : SwapEngine)
    (o : load_outcome A) (k : A -> res SwapEngine) : res SwapEngine :=
  match o with
  | Loaded a => k a
  | ImportFailed => _load_fallback ld self
  | LoadFailed e => Raise e
  end.

Definition _load_insightface (ld : Loader) (self : SwapEngine)
    : res SwapEngine :=
  load_step ld self (import_insightface ld) (fun _ =>
  load_step ld self (face_analysis ld) (fun _ =>
  let self := set_face_analyzer self in
  load_step ld self (analyzer_prepare ld) (fun _ =>
  load_step ld self (get_model ld) (fun sw =>
  let self := set_swapper sw self in
  if cuda_available ld then
    match sw with
    | None => Raise AttributeError
    | Some _ => load_step ld self (swapper_prepare ld) (fun _ => Ok self)
    end
  else Ok self)))).

(** [_load_deepfacelive]: the fallback, tried once more when it
    raised. *)
Definition _load_deepfacelive (ld : Loader) (self : SwapEngine)
    : res SwapEngine :=
  match _load_fallback ld self with
  | Ok s => Ok s
  | Raise _ => _load_fallback ld self
  end.

(** [SwapEngine(model_path, model_type, gpu_id)]: [__init__] followed
    by [_load_model], which logs and re-raises what loading raised. *)
Definition load_engine (ld : Loader) (model_type : string) : res SwapEngine :=
  if String.eqb model_type "insightface" then
    _load_insightface ld unloaded_engine
  else if String.eqb model_type "deepfacelive" then
    _load_deepfacelive ld unloaded_engine
  else Raise ValueError.

(** ** Counting delivered frames, and a loader sample *)

Definition ok_count {A} (rs : list (res A)) : nat :=
  length (filter (fun r => is_ok r = true) rs).

Definition loaded_sample : Loader :=
  {| cuda_available := false;
     import_insightface := Loaded tt;
     face_analysis := Loaded tt;
     analyzer_prepare := Loaded tt;
     get_model := Loaded (Some {| has_get := true |});
     swapper_prepare := Loaded tt;
     fallback_files_exist := true;
     readNetFromCaffe := Ok tt |}.

(** ** Worlds after a request, and further samples *)

(** The outcome of a POST as the client reports it. *)
Definition posted_ok (r : res nat) : bool :=
  match r with Ok status => (status =? 200)%nat | Raise _ => false end.

Definition posted (url : string) (body : gmap string json) (w : World)
    : World :=
  {| clock := clock w; tick := S (tick w);
     trace := trace w ++ [EvHttpPost url body] |}.

Definition refusing_env : Env :=
  {| cv2_resize := fun a _ => Ok a;
     analyzer_get := fun _ _ => Ok [];
     dnn_forward := fun _ _ => Ok [];
     haar_detect := fun _ _ => Ok [];
     swapper_get := fun _ _ _ _ _ => Ok None;
     pc_negotiate := fun _ _ => Raise InvalidStateError;
     http_get := fun _ _ => Ok (404%nat, JNull);
     http_post := fun t _ _ => if Nat.even t then Ok 503%nat
                               else Raise ClientError;
     gpu_memory_usage := fun _ => JObj ∅ |}.

Definition polled (url : string) (w : World) : World :=
  {| clock := clock w; tick := S (tick w);
     trace := trace w ++ [EvHttpGet url] |}.

Definition offer_without_id : gmap string json :=
  <["offer" := JStr "v=0 offer"]> ∅.

Definition refusing_offer_env : Env :=
  constant_env [] (Ok None) (Raise InvalidStateError)
               (Ok (200%nat, JObj offer_s1)).

Definition list_body_env : Env :=
  constant_env [] (Ok None) (Ok "v=0 answer")
               (Ok (200%nat, JArr [JStr "v=0 offer"])).

Definition haar_engine : SwapEngine :=
  {| face_analyzer := false; face_detector := false; swapper := None |}.

Definition haar_env : Env :=
  {| cv2_resize := fun a _ => Ok a;
     analyzer_get := fun _ _ => Ok [];
     dnn_forward := fun _ _ => Ok [];
     haar_detect := fun _ _ => Ok [(10, 20, 30, 40)];
     swapper_get := fun _ _ _ _ _ => Ok None;
     pc_negotiate := fun _ _ => Ok "a";
     http_get := fun _ _ => Ok (200%nat, JNull);
     http_post := fun _ _ _ => Ok 200%nat;
     gpu_memory_usage := fun _ => JObj ∅ |}.

Definition swapped (tgt : ndarray) (tf : Face) (src : ndarray) (sf : Face)
    (w : World) : World :=
  {| clock := clock w; tick := S (tick w);
     trace := trace w ++ [EvSwapperGet tgt tf src sf] |}.

(** * Properties *)

(** ** Clipping and quantization *)

Lemma wrap8_clipZ z : wrap8 (clipZ 0 255 z) = Z.max 0 (Z.min z 255).
Proof.
  unfold wrap8, clipZ. rewrite Z.mod_small; lia.
Qed.

Lemma clipZ_byte z : byte_range z -> clipZ 0 255 z = z.
Proof. unfold byte_range, clipZ. lia. Qed.

Lemma clipZ_range z : byte_range (clipZ 0 255 z).
Proof. unfold byte_range, clipZ. lia. Qed.

Lemma truncQ_nonneg q : (0 <= q)%Q -> truncQ q = Qfloor q.
Proof.
  destruct q as [n d]. unfold Qle, truncQ, Qfloor. simpl. intros H.
  apply Z.quot_div_nonneg; lia.
Qed.

Lemma wrap8_truncQ_clipQ q :
  wrap8 (truncQ (clipQ (inject_Z 0) (inject_Z 255) q))
  = Z.max 0 (Z.min (Qfloor q) 255).
Proof.
  unfold clipQ.
  destruct (Qlt_le_dec q (inject_Z 0)) as [Hneg | Hpos].
  - assert (Qfloor q < 0).
    { destruct (Z_lt_le_dec (Qfloor q) 0) as [|Hge]; [assumption|].
      exfalso. apply (Qlt_not_le _ _ Hneg).
      apply Qle_trans with (inject_Z (Qfloor q)); [|apply Qfloor_le].
      rewrite <- Zle_Qle. exact Hge. }
    vm_compute (wrap8 (truncQ (inject_Z 0))). lia.
  - destruct (Qlt_le_dec (inject_Z 255) q) as [Hbig | Hsmall].
    + assert (255 <= Qfloor q).
      { change 255 with (Qfloor (inject_Z 255)) at 1.
        apply Qfloor_resp_le. apply Qlt_le_weak. exact Hbig. }
      vm_compute (wrap8 (truncQ (inject_Z 255))). lia.
    + rewrite truncQ_nonneg by exact Hpos.
      assert (0 <= Qfloor q).
      { change 0 with (Qfloor (inject_Z 0)) at 1.
        apply Qfloor_resp_le. exact Hpos. }
      assert (Qfloor q <= 255).
      { change 255 with (Qfloor (inject_Z 255)) at 1.
        apply Qfloor_resp_le. exact Hsmall. }
      unfold wrap8. rewrite Z.mod_small; lia.
Qed.

Lemma Forall2_map_r {A B} (R : A -> B -> Prop) (f : A -> B) (l : list A) :
  (forall a, R a (f a)) -> Forall2 R l (map f l).
Proof. intros H. induction l; simpl; constructor; auto. Qed.

Lemma Forall_byte_repeat n : Forall byte_range (repeat 0 n).
Proof.
  induction n as [|n IH]; simpl; constructor; [|exact IH].
  unfold byte_range. lia.
Qed.

Lemma uint8_black_frame : uint8_array black_frame.
Proof.
  unfold uint8_array, black_frame, zeros. eexists. split; [reflexivity|].
  apply Forall_byte_repeat.
Qed.

Lemma quantized_int_range z z' : quantized_int z z' -> byte_range z'.
Proof. unfold quantized_int, byte_range. lia. Qed.

Lemma quantized_float_range q z' : quantized_float q z' -> byte_range z'.
Proof. unfold quantized_float, byte_range. lia. Qed.

(** The quantized image of a non-empty array, sample by sample. *)
Lemma astype_clip_samples (f : ndarray) :
  shape (astype_uint8 (clip f 0 255)) = shape f /\
  match data f with
  | U8 l | I64 l =>
      exists l', data (astype_uint8 (clip f 0 255)) = U8 l' /\
                 Forall2 quantized_int l l'
  | F32 l =>
      exists l', data (astype_uint8 (clip f 0 255)) = U8 l' /\
                 Forall2 quantized_float l l'
  end.
Proof.
  split; [reflexivity|].
  destruct f as [shp [l | l | l]]; simpl.
  - exists (map (clipZ 0 255) l). split; [reflexivity|].
    apply Forall2_map_r. intros z. unfold quantized_int, clipZ. lia.
  - exists (map wrap8 (map (clipZ 0 255) l)). split; [reflexivity|].
    rewrite map_map. apply Forall2_map_r. intros z. apply wrap8_clipZ.
  - eexists. split; [unfold astype_uint8, clip; simpl; reflexivity|].
    rewrite map_map. apply Forall2_map_r. intros q.
    apply wrap8_truncQ_clipQ.
Qed.

Lemma Forall2_range_r {A} (R : A -> Z -> Prop) l l' :
  (forall a z, R a z -> byte_range z) -> Forall2 R l l' ->
  Forall byte_range l'.
Proof. intros HR H. induction H; constructor; eauto. Qed.

Lemma uint8_postprocess frame : uint8_array (postprocess_frame frame).
Proof.
  destruct frame as [f|]; simpl; [|apply uint8_black_frame].
  destruct (size f =? 0)%nat; [apply uint8_black_frame|].
  destruct (astype_clip_samples f) as [_ H].
  destruct (data f) as [l | l | l]; destruct H as (l' & Hd & HF);
    exists l'; (split; [exact Hd|]).
  - eapply Forall2_range_r; [apply quantized_int_range | exact HF].
  - eapply Forall2_range_r; [apply quantized_int_range | exact HF].
  - eapply Forall2_range_r; [apply quantized_float_range | exact HF].
Qed.

(** C7.  Postprocessing always yields a uint8 array whose samples lie
    in the display range 0..255.  An absent frame and a frame of size
    zero are replaced by the black frame, a uint8 array of shape
    480 x 640 x 3 filled with zeros.  Any other frame keeps its shape,
    and each of its samples is clipped to 0..255 and converted to an
    integer. *)
Theorem postprocess_frame_clips_and_quantizes (frame : option ndarray) :
  uint8_array (postprocess_frame frame) /\
  (frame = None \/ (exists f, frame = Some f /\ size f = 0%nat) ->
   postprocess_frame frame = zeros [480; 640; 3]%nat) /\
  (forall f, frame = Some f -> size f <> 0%nat ->
     shape (postprocess_frame frame) = shape f /\
     match data f with
     | U8 l | I64 l =>
         exists l', data (postprocess_frame frame) = U8 l' /\
                    Forall2 quantized_int l l'
     | F32 l =>
         exists l', data (postprocess_frame frame) = U8 l' /\
                    Forall2 quantized_float l l'
     end).
Proof.
  split; [apply uint8_postprocess|]. split.
  - intros [-> | (f & -> & Hsz)]; simpl; [reflexivity|].
    rewrite Hsz. reflexivity.
  - intros f -> Hsz. simpl.
    destruct (size f =? 0)%nat eqn:E.
    + apply Nat.eqb_eq in E. contradiction.
    + apply astype_clip_samples.
Qed.

Lemma postprocess_frame_clips_witness :
  let f := {| shape := [1; 1; 3]%nat;
              data := F32 [(-3 # 2)%Q; (7 # 2)%Q; (300 # 1)%Q] |} in
  postprocess_frame None = zeros [480; 640; 3]%nat /\
  size f <> 0%nat /\
  shape (postprocess_frame (Some f)) = [1; 1; 3]%nat /\
  exists l', data (postprocess_frame (Some f)) = U8 l' /\
             Forall2 quantized_float [(-3 # 2)%Q; (7 # 2)%Q; (300 # 1)%Q] l'.
Proof.
  intros f.
  assert (Hsz : size f <> 0%nat) by (vm_compute; discriminate).
  split.
  - exact (proj1 (proj2 (postprocess_frame_clips_and_quantizes None))
                 (or_introl eq_refl)).
  - split; [exact Hsz|].
    exact (proj2 (proj2 (postprocess_frame_clips_and_quantizes (Some f)))
                 f eq_refl Hsz).
Defined.

(** ** The frame pipeline, step by step *)

Lemma capture_eq env img tr w :
  capture env img (tr, w) =
  match source_face tr with
  | Some _ => (Ok tt, (tr, w))
  | None =>
      let d := detect_faces env (track_swap_engine tr) img w in
      match d.1 with
      | Ok (f :: _) => (Ok tt, (set_source_face f tr, d.2))
      | Ok [] => (Ok tt, (tr, d.2))
      | Raise e => (Raise e, (tr, d.2))
      end
  end.
Proof.
  unfold capture. unfold_monad. cbn.
  destruct (source_face tr); [reflexivity|]. cbn.
  destruct (detect_faces env (track_swap_engine tr) img w) as [[l | e] w'];
    cbn; [destruct l|]; reflexivity.
Qed.

Lemma swap_step_eq env img tr w :
  swap_step env img (tr, w) =
  match source_face tr with
  | None => (Ok (Some img), (tr, w))
  | Some f =>
      let s := swap_face env (track_swap_engine tr) img img (Some f) None w in
      (match s.1 with Ok o => Ok o | Raise _ => Ok (Some img) end,
       (tr, s.2))
  end.
Proof.
  unfold swap_step. unfold_monad. cbn.
  destruct (source_face tr); [|reflexivity]. cbn.
  destruct (swap_face env (track_swap_engine tr) img img (Some f) None w)
    as [[o | e] w']; reflexivity.
Qed.

Lemma recv_eq env frame tr w :
  recv env frame (tr, w) =
  match preprocess_frame env (track_frame_processor tr) (planes frame) with
  | Raise e => (Raise e, (tr, w))
  | Ok img =>
      let c := capture env img (tr, w) in
      match c.1 with
      | Raise e => (Raise e, c.2)
      | Ok _ =>
          let s := swap_step env img c.2 in
          match s.1 with
          | Raise e => (Raise e, s.2)
          | Ok o => finish frame o s.2
          end
      end
  end.
Proof.
  unfold recv, finish, to_ndarray.
  unfold mbind at 1, M_bind at 1, get_self at 1, gets at 1. simpl.
  unfold mbind at 1, M_bind at 1, lift_res at 1.
  destruct (preprocess_frame env (track_frame_processor tr) (planes frame))
    as [img | e]; [|reflexivity].
  unfold mbind at 1, M_bind at 1.
  destruct (capture env img (tr, w)) as [[[] | e] st1]; [|reflexivity].
  unfold mbind at 1, M_bind at 1. simpl.
  destruct (swap_step env img st1) as [[o | e] st2]; [|reflexivity].
  simpl. unfold_monad.
  destruct (from_ndarray (postprocess_frame o)) as [nf | e]; reflexivity.
Qed.

Lemma finish_state frame o st :
  (finish frame o st).2.2 = st.2 /\
  source_face (finish frame o st).2.1 = source_face st.1 /\
  track_swap_engine (finish frame o st).2.1 = track_swap_engine st.1 /\
  track_frame_processor (finish frame o st).2.1 = track_frame_processor st.1.
Proof.
  unfold finish. destruct (from_ndarray (postprocess_frame o)); simpl; auto.
Qed.

Lemma finish_ok frame o st out st' :
  finish frame o st = (Ok out, st') ->
  pts out = pts frame /\ time_base out = time_base frame /\
  from_ndarray (postprocess_frame o)
  = Ok {| pts := None; time_base := None; planes := planes out |}.
Proof.
  unfold finish.
  destruct (from_ndarray (postprocess_frame o)) as [nf | e] eqn:E;
    [|discriminate].
  intros [= <- <-]. simpl. repeat split.
  unfold from_ndarray in E.
  destruct (is_uint8 (postprocess_frame o)); [|discriminate].
  destruct (shape (postprocess_frame o)) as [|? [|? [|[|[|[|[|c]]]] [|? ?]]]];
    try discriminate.
  injection E as <-. reflexivity.
Qed.

Lemma preprocess_bgr24 env fp a h w :
  target_size fp = None -> shape a = [h; w; 3%nat] ->
  preprocess_frame env fp a = Ok a.
Proof.
  intros Hts Hsh. unfold preprocess_frame. rewrite Hts. cbn.
  unfold ndim. rewrite Hsh. reflexivity.
Qed.

Lemma detect_faces_call env eng img w :
  (2 <= ndim img)%nat ->
  trace (detect_faces env eng img w).2 = trace w ++ [detect_event eng img] /\
  tick (detect_faces env eng img w).2 = S (tick w) /\
  clock (detect_faces env eng img w).2 = clock w.
Proof.
  intros Hnd. unfold detect_faces, detect_event.
  destruct (face_analyzer eng).
  - unfold_monad. cbn. destruct (analyzer_get env (tick w) img); cbn; auto.
  - destruct (face_detector eng).
    + unfold ndim in Hnd.
      destruct (shape img) as [|h [|w0 rest]]; simpl in Hnd; try lia.
      unfold_monad. cbn. destruct (dnn_forward env (tick w) img); cbn; auto.
    + unfold_monad. cbn. destruct (haar_detect env (tick w) img); cbn; auto.
Qed.

(** Every computation of the engine only extends the trace. *)
Lemma detect_faces_extends env eng img w :
  exists evs, trace (detect_faces env eng img w).2 = trace w ++ evs.
Proof.
  unfold detect_faces.
  destruct (face_analyzer eng); [|destruct (face_detector eng)].
  - unfold_monad. cbn. destruct (analyzer_get env (tick w) img); cbn; eauto.
  - destruct (shape img) as [|h [|w0 rest]];
      try (exists []; cbn; symmetry; apply app_nil_r).
    unfold_monad. cbn. destruct (dnn_forward env (tick w) img); cbn; eauto.
  - unfold_monad. cbn. destruct (haar_detect env (tick w) img); cbn; eauto.
Qed.

Lemma first_or_detect_extends env eng given img w :
  exists evs, trace (first_or_detect env eng given img w).2 = trace w ++ evs.
Proof.
  unfold first_or_detect. destruct given as [f|].
  - exists []. cbn. symmetry. apply app_nil_r.
  - destruct (detect_faces_extends env eng img w) as [evs H].
    exists evs. unfold_monad.
    destruct (detect_faces env eng img w) as [[l | e] w']; cbn in *; exact H.
Qed.

Lemma swap_face_extends env eng src tgt sf tf w :
  exists evs, trace (swap_face env eng src tgt sf tf w).2 = trace w ++ evs.
Proof.
  unfold swap_face. destruct (swapper eng) as [sw|];
    [|exists []; cbn; symmetry; apply app_nil_r].
  destruct (first_or_detect_extends env eng sf src w) as [e1 H1].
  unfold mbind at 1, M_bind at 1.
  destruct (first_or_detect env eng sf src w) as [[[f1|] | e] w1];
    cbn in H1; try (exists e1; cbn; exact H1).
  destruct (first_or_detect_extends env eng tf tgt w1) as [e2 H2].
  unfold mbind at 1, M_bind at 1.
  destruct (first_or_detect env eng tf tgt w1) as [[[f2|] | e] w2];
    cbn in H2; rewrite H1, <- app_assoc in H2;
    try (exists (e1 ++ e2); cbn; exact H2).
  destruct (has_get sw); unfold_monad; cbn.
  - destruct (swapper_get env (tick w2) tgt f2 src f1); cbn;
      exists ((e1 ++ e2) ++ [EvSwapperGet tgt f2 src f1]);
      rewrite H2; rewrite !app_assoc; reflexivity.
  - exists (e1 ++ e2). exact H2.
Qed.

(** One call of [recv] on a track whose cache is empty. *)
Lemma recv_empty_cache env frame tr w img :
  source_face tr = None ->
  preprocess_frame env (track_frame_processor tr) (planes frame) = Ok img ->
  (2 <= ndim img)%nat ->
  let eng := track_swap_engine tr in
  let d := detect_faces env eng img w in
  let st' := (recv env frame (tr, w)).2 in
  source_face st'.1
    = match d.1 with Ok (f :: _) => Some f | _ => None end /\
  (exists rest, trace st'.2 = trace w ++ detect_event eng img :: rest) /\
  (source_face st'.1 = None ->
   trace st'.2 = trace w ++ [detect_event eng img]) /\
  track_swap_engine st'.1 = eng /\
  track_frame_processor st'.1 = track_frame_processor tr.
Proof.
  intros Hnone Hpre Hnd eng d st'. subst st'.
  rewrite recv_eq, Hpre. cbn zeta. rewrite capture_eq, Hnone. cbn zeta.
  fold eng. fold d.
  destruct (detect_faces_call env eng img w Hnd) as (Htr & _ & _).
  fold d in Htr.
  destruct d as [[[|f l] | e] w1]; cbn in Htr; cbn [fst snd].
  - rewrite swap_step_eq. cbn [fst snd]. rewrite Hnone. cbn [fst snd].
    destruct (finish_state frame (Some img) (tr, w1)) as (Hw & Hs & He & Hf).
    cbn [fst snd] in *. rewrite Hw, Hs, He, Hf, Hnone, Htr.
    repeat split; eauto.
  - rewrite swap_step_eq. cbn [fst snd source_face set_source_face].
    cbn zeta. cbn [fst snd].
    set (s := swap_face env _ img img (Some f) None w1).
    destruct (swap_face_extends env (track_swap_engine (set_source_face f tr))
                img img (Some f) None w1) as [evs Hs]. fold s in Hs.
    assert (Hfin : forall o,
      let fin := finish frame o (set_source_face f tr, s.2) in
      source_face fin.2.1 = Some f /\
      (exists rest, trace fin.2.2 = trace w ++ detect_event eng img :: rest) /\
      track_swap_engine fin.2.1 = eng /\
      track_frame_processor fin.2.1 = track_frame_processor tr).
    { intros o fin. subst fin.
      destruct (finish_state frame o (set_source_face f tr, s.2))
        as (Hw & Hsf & He & Hf).
      cbn [fst snd] in *. rewrite Hw, Hsf, He, Hf, Hs, Htr. cbn.
      repeat split; auto. exists evs. rewrite <- app_assoc. reflexivity. }
    destruct (s.1) as [o | e]; cbn [fst snd];
      [destruct (Hfin o) as (A & B & C & D)
      |destruct (Hfin (Some img)) as (A & B & C & D)];
      repeat split; auto; rewrite A; discriminate.
  - cbn. rewrite Hnone, Htr. repeat split; eauto.
Qed.

(** What [recv] never touches: the collaborators of the track and a
    stored source face. *)
Lemma recv_track env frame tr w :
  track_swap_engine (recv env frame (tr, w)).2.1 = track_swap_engine tr /\
  track_frame_processor (recv env frame (tr, w)).2.1
  = track_frame_processor tr /\
  (forall f, source_face tr = Some f ->
             source_face (recv env frame (tr, w)).2.1 = Some f).
Proof.
  rewrite recv_eq.
  destruct (preprocess_frame env (track_frame_processor tr) (planes frame))
    as [img | e]; [|cbn; auto].
  cbn zeta. rewrite capture_eq.
  assert (Hfin : forall tr' w',
    track_swap_engine tr' = track_swap_engine tr ->
    track_frame_processor tr' = track_frame_processor tr ->
    (forall f, source_face tr = Some f -> source_face tr' = Some f) ->
    let r := (let s := swap_step env img (tr', w') in
              match s.1 with
              | Raise e => (Raise e, s.2)
              | Ok o => finish frame o s.2
              end) in
    track_swap_engine r.2.1 = track_swap_engine tr /\
    track_frame_processor r.2.1 = track_frame_processor tr /\
    (forall f, source_face tr = Some f -> source_face r.2.1 = Some f)).
  { intros tr' w' He Hf Hs. cbn zeta. rewrite swap_step_eq.
    destruct (source_face tr') as [f'|] eqn:Hsf; cbn zeta; cbn [fst snd].
    - set (s := swap_face env _ img img (Some f') None w').
      destruct (s.1) as [o' | e].
      + destruct (finish_state frame o' (tr', s.2)) as (_ & A & B & C).
        cbn [fst snd] in *. rewrite A, B, C, Hsf.
        repeat split; auto; intros f Hf'; rewrite <- Hsf; auto.
      + destruct (finish_state frame (Some img) (tr', s.2))
          as (_ & A & B & C).
        cbn [fst snd] in *. rewrite A, B, C, Hsf.
        repeat split; auto; intros f Hf'; rewrite <- Hsf; auto.
    - destruct (finish_state frame (Some img) (tr', w')) as (_ & A & B & C).
      cbn [fst snd] in *. rewrite A, B, C, Hsf.
      repeat split; auto; intros f Hf'; rewrite <- Hsf; auto. }
  destruct (source_face tr) as [f0|] eqn:Hsf.
  - cbn [fst snd]. apply Hfin; auto. congruence.
  - cbn zeta.
    destruct (detect_faces env (track_swap_engine tr) img w)
      as [[[|f l] | e] w1]; cbn [fst snd].
    + apply Hfin; auto. congruence.
    + apply Hfin; auto. discriminate.
    + repeat split; auto. discriminate.
Qed.

Lemma recv_all_cons env frame rest st :
  recv_all env (frame :: rest) st =
  ((recv env frame st).1 :: (recv_all env rest (recv env frame st).2).1,
   (recv_all env rest (recv env frame st).2).2).
Proof.
  simpl. destruct (recv env frame st) as [r st']. cbn [fst snd].
  destruct (recv_all env rest st') as [rs st'']. reflexivity.
Qed.

Lemma recv_all_keeps_cache env frames : forall tr w f,
  source_face tr = Some f ->
  source_face (recv_all env frames (tr, w)).2.1 = Some f.
Proof.
  induction frames as [|frame rest IH]; intros tr w f Hsf; [exact Hsf|].
  rewrite recv_all_cons. cbn [snd].
  destruct (recv_track env frame tr w) as (_ & _ & Hk).
  specialize (Hk f Hsf).
  destruct (recv env frame (tr, w)) as [r [tr1 w1]]. cbn [fst snd] in *.
  apply IH. exact Hk.
Qed.

Lemma recv_all_length env frames : forall st,
  length (recv_all env frames st).1 = length frames.
Proof.
  induction frames as [|frame rest IH]; intros st; [reflexivity|].
  rewrite recv_all_cons. cbn [fst length]. rewrite IH. reflexivity.
Qed.

Lemma bgr24_preprocess env fp a :
  target_size fp = None -> bgr24_picture a ->
  preprocess_frame env fp a = Ok a /\ (2 <= ndim a)%nat.
Proof.
  intros Hts (_ & (h & w & Hsh) & _). split.
  - eapply preprocess_bgr24; eauto.
  - unfold ndim. rewrite Hsh. simpl. lia.
Qed.

Lemma recv_all_empty_cache_trace env frames : forall tr w,
  source_face tr = None ->
  target_size (track_frame_processor tr) = None ->
  Forall (fun fr => bgr24_picture (planes fr)) frames ->
  source_face (recv_all env frames (tr, w)).2.1 = None ->
  trace (recv_all env frames (tr, w)).2.2
  = trace w ++ map (fun fr => detect_event (track_swap_engine tr) (planes fr))
                   frames.
Proof.
  induction frames as [|frame rest IH]; intros tr w Hnone Hts Hall Hend.
  - simpl. symmetry. apply app_nil_r.
  - inversion Hall as [|? ? Hfr Hrest]; subst.
    destruct (bgr24_preprocess env _ _ Hts Hfr) as [Hpre Hnd].
    rewrite recv_all_cons in Hend |- *. cbn [snd] in Hend |- *.
    destruct (recv_empty_cache env frame tr w _ Hnone Hpre Hnd)
      as (_ & _ & Htr & He & Hf).
    destruct (recv env frame (tr, w)) as [r [tr1 w1]]. cbn [fst snd] in *.
    destruct (source_face tr1) as [f|] eqn:Hsf1.
    + rewrite (recv_all_keeps_cache env rest tr1 w1 f Hsf1) in Hend.
      discriminate.
    + rewrite IH; auto; [|congruence].
      rewrite Htr by reflexivity. rewrite He, <- app_assoc. reflexivity.
Qed.

(** C3.  A stored source face is never replaced: whatever frames
    arrive and whatever the collaborators answer, a track whose cache
    holds [f] still holds [f] afterwards.  While the cache is empty,
    every frame makes one detection call on its picture, and the cache
    becomes the first face of the first non-empty answer: after a
    single frame the cache is empty again exactly when the detector
    raised or found nothing; and over any run of frames that leaves the
    cache empty, the trace has grown by exactly one detection call per
    frame, in order. *)
Theorem identity_cache_stable_and_capture_retried (env : Env) :
  (forall frames tr w f,
     source_face tr = Some f ->
     source_face (recv_all env frames (tr, w)).2.1 = Some f) /\
  (forall frame tr w,
     source_face tr = None ->
     target_size (track_frame_processor tr) = None ->
     bgr24_picture (planes frame) ->
     let eng := track_swap_engine tr in
     (exists rest,
        trace (recv env frame (tr, w)).2.2
        = trace w ++ detect_event eng (planes frame) :: rest) /\
     source_face (recv env frame (tr, w)).2.1
     = match (detect_faces env eng (planes frame) w).1 with
       | Ok (f :: _) => Some f
       | _ => None
       end) /\
  (forall frames tr w,
     source_face tr = None ->
     target_size (track_frame_processor tr) = None ->
     Forall (fun fr => bgr24_picture (planes fr)) frames ->
     source_face (recv_all env frames (tr, w)).2.1 = None ->
     trace (recv_all env frames (tr, w)).2.2
     = trace w ++ map (fun fr => detect_event (track_swap_engine tr)
                                               (planes fr)) frames).
Proof.
  split; [|split].
  - intros frames tr w f. apply recv_all_keeps_cache.
  - intros frame tr w Hnone Hts Hfr eng.
    destruct (bgr24_preprocess env _ _ Hts Hfr) as [Hpre Hnd].
    destruct (recv_empty_cache env frame tr w _ Hnone Hpre Hnd)
      as (A & B & _). split; assumption.
  - intros frames tr w. apply recv_all_empty_cache_trace.
Qed.

(** ** The identity cache and the timing metadata *)

Lemma sample_picture_bgr24 : bgr24_picture sample_picture.
Proof.
  repeat split.
  - exists [10; 20; 30; 40; 50; 60]. split; [reflexivity|].
    repeat constructor; unfold byte_range; lia.
  - exists 1%nat, 2%nat. reflexivity.
  - vm_compute. discriminate.
Defined.

Lemma second_picture_bgr24 : bgr24_picture (planes second_frame).
Proof.
  repeat split.
  - exists [7; 8; 9]. split; [reflexivity|].
    repeat constructor; unfold byte_range; lia.
  - exists 1%nat, 1%nat. reflexivity.
  - vm_compute. discriminate.
Defined.

Lemma identity_cache_witness :
  let f := analyzer_face face_a in
  let env := constant_env [face_b] (Ok None) (Ok "a") (Ok (200%nat, JNull)) in
  source_face (recv_all env [sample_frame; second_frame]
                        (set_source_face f fresh_track, initial_world)).2.1
  = Some f /\
  source_face (recv env sample_frame (fresh_track, initial_world)).2.1
  = Some (analyzer_face face_b) /\
  trace (recv_all quiet_env [sample_frame; second_frame]
                  (fresh_track, initial_world)).2.2
  = [EvAnalyzerGet sample_picture; EvAnalyzerGet (planes second_frame)].
Proof.
  intros f env. split; [|split].
  - exact (proj1 (identity_cache_stable_and_capture_retried env)
                 [sample_frame; second_frame]
                 (set_source_face f fresh_track) initial_world f eq_refl).
  - exact (proj2 (proj1 (proj2 (identity_cache_stable_and_capture_retried env))
                        sample_frame fresh_track initial_world eq_refl eq_refl
                        sample_picture_bgr24)).
  - apply (proj2 (proj2 (identity_cache_stable_and_capture_retried quiet_env))
                 [sample_frame; second_frame] fresh_track initial_world);
      [reflexivity | reflexivity | | reflexivity].
    constructor; [exact sample_picture_bgr24|].
    constructor; [exact second_picture_bgr24 | constructor].
Defined.

(** C5.  Whenever [recv] returns a frame, its presentation timestamp
    and its time base are those of the input frame: the output is the
    input frame with, at most, another picture. *)
Theorem recv_preserves_timing (env : Env) (frame out : VideoFrame)
    (st st' : ProcessedVideoTrack * World) :
  recv env frame st = (Ok out, st') ->
  pts out = pts frame /\ time_base out = time_base frame /\
  out = {| pts := pts frame; time_base := time_base frame;
           planes := planes out |}.
Proof.
  destruct st as [tr w]. rewrite recv_eq.
  destruct (preprocess_frame env (track_frame_processor tr) (planes frame))
    as [img | e]; [|discriminate].
  cbn zeta.
  destruct (capture env img (tr, w)) as [[[] | e] st1]; [|discriminate].
  cbn [fst snd].
  destruct (swap_step env img st1) as [[o | e] st2]; [|discriminate].
  cbn [fst snd]. intros H.
  destruct (finish_ok _ _ _ _ _ H) as (Hp & Ht & _).
  repeat split; auto.
  destruct out as [p t pl]. simpl in *. congruence.
Qed.

Lemma recv_preserves_timing_witness :
  exists out st',
    recv quiet_env sample_frame (fresh_track, initial_world) = (Ok out, st') /\
    pts out = Some 3000 /\ time_base out = Some (1 # 90000)%Q.
Proof.
  eexists. eexists.
  assert (H : recv quiet_env sample_frame (fresh_track, initial_world)
              = (Ok sample_frame,
                 (incr_frame_count fresh_track,
                  {| clock := 0; tick := 1;
                     trace := [EvAnalyzerGet sample_picture] |})))
    by (vm_compute; reflexivity).
  split; [exact H|].
  destruct (recv_preserves_timing _ _ _ _ _ H) as (Hp & Ht & _).
  split; [exact Hp | exact Ht].
Defined.

(** ** Pictures that pass through unchanged *)

Lemma map_clipZ_bytes l : Forall byte_range l -> map (clipZ 0 255) l = l.
Proof.
  induction 1 as [|z l Hz _ IH]; simpl; [reflexivity|].
  rewrite clipZ_byte by exact Hz. rewrite IH. reflexivity.
Qed.

Lemma postprocess_uint8 a :
  uint8_array a -> size a <> 0%nat -> postprocess_frame (Some a) = a.
Proof.
  intros (l & Hd & Hl) Hsz. simpl.
  destruct (size a =? 0)%nat eqn:E; [apply Nat.eqb_eq in E; contradiction|].
  destruct a as [shp d]. simpl in Hd. subst d.
  unfold astype_uint8, clip. simpl. rewrite map_clipZ_bytes by exact Hl.
  reflexivity.
Qed.

Lemma from_ndarray_bgr24 a :
  bgr24_picture a ->
  from_ndarray a = Ok {| pts := None; time_base := None; planes := a |}.
Proof.
  intros ((l & Hd & _) & (h & w & Hsh) & _). unfold from_ndarray, is_uint8.
  rewrite Hd, Hsh. reflexivity.
Qed.

Lemma finish_unchanged frame img st :
  bgr24_picture img ->
  finish frame (Some img) st
  = (Ok {| pts := pts frame; time_base := time_base frame; planes := img |},
     (incr_frame_count st.1, st.2)).
Proof.
  intros Hb. unfold finish.
  rewrite postprocess_uint8 by apply Hb.
  rewrite from_ndarray_bgr24 by exact Hb. reflexivity.
Qed.

Lemma postprocess_black o :
  o = None \/ (exists r, o = Some r /\ size r = 0%nat) ->
  postprocess_frame o = black_frame.
Proof.
  intros [-> | (r & -> & Hsz)]; simpl; [reflexivity|].
  rewrite Hsz. reflexivity.
Qed.

Lemma finish_black frame o st :
  o = None \/ (exists r, o = Some r /\ size r = 0%nat) ->
  finish frame o st
  = (Ok {| pts := pts frame; time_base := time_base frame;
           planes := black_frame |},
     (incr_frame_count st.1, st.2)).
Proof.
  intros Ho. unfold finish. rewrite (postprocess_black o Ho). reflexivity.
Qed.

(** [recv] on a track that holds a source face. *)
Lemma recv_cached env frame tr w f :
  source_face tr = Some f ->
  target_size (track_frame_processor tr) = None ->
  bgr24_picture (planes frame) ->
  let img := planes frame in
  let s := swap_face env (track_swap_engine tr) img img (Some f) None w in
  recv env frame (tr, w)
  = finish frame (match s.1 with Ok o => o | Raise _ => Some img end)
           (tr, s.2).
Proof.
  intros Hsf Hts Hb img s.
  destruct (bgr24_preprocess env _ _ Hts Hb) as [Hpre _].
  rewrite recv_eq, Hpre. cbn zeta. rewrite capture_eq, Hsf. cbn [fst snd].
  rewrite swap_step_eq, Hsf. cbn zeta. cbn [fst snd]. fold img. fold s.
  destruct (s.1); reflexivity.
Qed.

(** [recv] on a track with an empty cache, for a picture in which the
    detector finds no face. *)
Lemma recv_no_face env frame tr w img :
  source_face tr = None ->
  preprocess_frame env (track_frame_processor tr) (planes frame) = Ok img ->
  (detect_faces env (track_swap_engine tr) img w).1 = Ok [] ->
  recv env frame (tr, w)
  = finish frame (Some img)
           (tr, (detect_faces env (track_swap_engine tr) img w).2).
Proof.
  intros Hsf Hpre Hdet.
  rewrite recv_eq, Hpre. cbn zeta. rewrite capture_eq, Hsf. cbn zeta.
  rewrite Hdet. cbn [fst snd]. rewrite swap_step_eq, Hsf. reflexivity.
Qed.

Lemma frame_eta (frame : VideoFrame) :
  {| pts := pts frame; time_base := time_base frame; planes := planes frame |}
  = frame.
Proof. destruct frame. reflexivity. Qed.

(** ** Which face is captured *)

Lemma spec_best_from_first f rest :
  Forall (fun g => (det_score g <= det_score f)%Q) rest ->
  spec_best_from f rest = f.
Proof.
  induction 1 as [|g rest Hg _ IH]; simpl; [reflexivity|].
  apply Qle_bool_iff in Hg. rewrite Hg. simpl. exact IH.
Qed.

(** The score of the best candidate bounds every score of the list. *)
Lemma spec_best_from_bound rest : forall f,
  (det_score f <= det_score (spec_best_from f rest))%Q /\
  Forall (fun g => (det_score g <= det_score (spec_best_from f rest))%Q) rest.
Proof.
  induction rest as [|g rest IH]; intros f; simpl.
  - split; [apply Qle_refl | constructor].
  - destruct (Qle_bool (det_score g) (det_score f)) eqn:E; simpl.
    + apply Qle_bool_iff in E. destruct (IH f) as [Hf Hrest].
      split; [exact Hf|]. constructor; [|exact Hrest].
      eapply Qle_trans; eassumption.
    + assert (Hlt : (det_score f <= det_score g)%Q).
      { apply Qlt_le_weak. apply Qnot_le_lt. intros Hle.
        apply Qle_bool_iff in Hle. congruence. }
      destruct (IH g) as [Hg Hrest].
      split; [eapply Qle_trans; eassumption|].
      constructor; assumption.
Qed.

(** C4 (counterexample).  The analyzer reports two faces, the second
    with the higher score; the track stores the first one, which is
    not the best candidate. *)
Lemma first_face_stored_not_highest_score :
  let env := constant_env [face_a; face_b] (Ok None) (Ok "a")
                          (Ok (200%nat, JNull)) in
  let faces := [analyzer_face face_a; analyzer_face face_b] in
  (detect_faces env insightface_engine sample_picture initial_world).1
  = Ok faces /\
  spec_best_candidate faces = Some (analyzer_face face_b) /\
  source_face (recv env sample_frame (fresh_track, initial_world)).2.1
  = Some (analyzer_face face_a) /\
  source_face (recv env sample_frame (fresh_track, initial_world)).2.1
  <> spec_best_candidate faces.
Proof.
  intros env faces.
  assert (Hrecv :
    source_face (recv env sample_frame (fresh_track, initial_world)).2.1
    = Some (analyzer_face face_a)).
  { destruct (recv_empty_cache env sample_frame fresh_track initial_world
                sample_picture eq_refl eq_refl) as (H & _).
    - unfold ndim, sample_picture. simpl. lia.
    - exact H. }
  repeat split; try reflexivity; try exact Hrecv.
  rewrite Hrecv. vm_compute. discriminate.
Qed.

(** C4 (as amended).  When capture runs and the detector returns a
    non-empty list, the stored identity is the first element of the
    list, whatever the scores.  It is the highest-scoring candidate
    (first one on ties) exactly when no later element has a strictly
    higher score than the first. *)
Theorem capture_stores_first_detected_face (env : Env) (frame : VideoFrame)
    (tr : ProcessedVideoTrack) (w : World) (f : Face) (rest : list Face) :
  source_face tr = None ->
  target_size (track_frame_processor tr) = None ->
  bgr24_picture (planes frame) ->
  (detect_faces env (track_swap_engine tr) (planes frame) w).1
  = Ok (f :: rest) ->
  source_face (recv env frame (tr, w)).2.1 = Some f /\
  (source_face (recv env frame (tr, w)).2.1 = spec_best_candidate (f :: rest)
   <-> Forall (fun g => (det_score g <= det_score f)%Q) rest).
Proof.
  intros Hsf Hts Hb Hdet.
  destruct (bgr24_preprocess env _ _ Hts Hb) as [Hpre Hnd].
  destruct (recv_empty_cache env frame tr w _ Hsf Hpre Hnd) as (H & _).
  rewrite Hdet in H. split; [exact H|].
  rewrite H. simpl. split.
  - intros [= Heq]. destruct (spec_best_from_bound rest f) as [_ Hall].
    rewrite <- Heq in Hall. exact Hall.
  - intros Hle. rewrite spec_best_from_first by exact Hle. reflexivity.
Qed.

Lemma capture_stores_first_witness :
  let env := constant_env [face_b; face_a] (Ok None) (Ok "a")
                          (Ok (200%nat, JNull)) in
  source_face (recv env sample_frame (fresh_track, initial_world)).2.1
  = Some (analyzer_face face_b) /\
  source_face (recv env sample_frame (fresh_track, initial_world)).2.1
  = spec_best_candidate [analyzer_face face_b; analyzer_face face_a].
Proof.
  intros env.
  destruct (capture_stores_first_detected_face env sample_frame fresh_track
              initial_world (analyzer_face face_b) [analyzer_face face_a]
              eq_refl eq_refl sample_picture_bgr24 eq_refl) as [H1 H2].
  split; [exact H1|]. apply (proj2 H2).
  constructor; [|constructor]. vm_compute. discriminate.
Defined.

(** ** A failing swap *)

Lemma swap_face_failing env eng img f w :
  swapper_always_raises env ->
  (swap_face env eng img img (Some f) None w).1 = Ok (Some img) \/
  exists e, (swap_face env eng img img (Some f) None w).1 = Raise e.
Proof.
  intros Hfail. unfold swap_face.
  destruct (swapper eng) as [sw|]; [|left; reflexivity].
  unfold first_or_detect at 1. unfold mbind at 1, M_bind at 1. cbn.
  unfold first_or_detect. unfold_monad.
  destruct (detect_faces env eng img w) as [[[|tf l] | e] w1]; cbn;
    [left; reflexivity | | right; eauto].
  destruct (has_get sw); cbn; [|left; reflexivity].
  destruct (Hfail (tick w1) img tf img f) as [e ->]. left. reflexivity.
Qed.

Lemma recv_swap_failing env frame tr w f :
  swapper_always_raises env ->
  source_face tr = Some f ->
  target_size (track_frame_processor tr) = None ->
  bgr24_picture (planes frame) ->
  (recv env frame (tr, w)).1 = Ok frame.
Proof.
  intros Hfail Hsf Hts Hb.
  rewrite (recv_cached env frame tr w f Hsf Hts Hb). cbn zeta.
  destruct (swap_face_failing env (track_swap_engine tr) (planes frame) f w
              Hfail) as [-> | [e ->]];
    rewrite finish_unchanged by exact Hb; cbn [fst];
    rewrite frame_eta; reflexivity.
Qed.

Lemma recv_all_swap_failing env frames : forall tr w f,
  swapper_always_raises env ->
  source_face tr = Some f ->
  target_size (track_frame_processor tr) = None ->
  Forall (fun fr => bgr24_picture (planes fr)) frames ->
  (recv_all env frames (tr, w)).1 = map Ok frames.
Proof.
  induction frames as [|frame rest IH]; intros tr w f Hfail Hsf Hts Hall;
    [reflexivity|].
  inversion Hall as [|? ? Hb Hrest]; subst.
  rewrite recv_all_cons. cbn [fst map].
  rewrite (recv_swap_failing env frame tr w f Hfail Hsf Hts Hb).
  destruct (recv_track env frame tr w) as (_ & Hfp & Hk).
  specialize (Hk f Hsf).
  destruct (recv env frame (tr, w)) as [r [tr1 w1]]. cbn [fst snd] in *.
  rewrite (IH tr1 w1 f); auto. congruence.
Qed.

Lemma black_frame_not_sample : black_frame <> sample_picture.
Proof.
  intros H. apply (f_equal shape) in H. unfold black_frame, zeros in H.
  simpl in H. discriminate H.
Qed.

(** C6 (counterexample).  The swapper returns no image for a frame, so
    that [swap_face] returns [None]: [recv] does not raise, but the
    frame it returns carries the black frame, not the picture of the
    input. *)
Lemma invalid_swap_output_replaces_the_picture :
  let env := constant_env [face_a] (Ok None) (Ok "a") (Ok (200%nat, JNull)) in
  (swap_face env insightface_engine sample_picture sample_picture
             (Some (analyzer_face face_a)) None initial_world).1 = Ok None /\
  exists out,
    (recv env sample_frame (cached_track, initial_world)).1 = Ok out /\
    planes out = black_frame /\
    planes out <> planes sample_frame.
Proof.
  intros env. split; [reflexivity|].
  eexists. split.
  - rewrite (recv_cached env sample_frame cached_track initial_world
               (analyzer_face face_a) eq_refl eq_refl sample_picture_bgr24).
    cbn zeta.
    change (swap_face env (track_swap_engine cached_track)
              (planes sample_frame) (planes sample_frame)
              (Some (analyzer_face face_a)) None initial_world).1
      with (@Ok (option ndarray) None).
    cbn iota. rewrite finish_black by (left; reflexivity). reflexivity.
  - split; [reflexivity|]. apply black_frame_not_sample.
Qed.

(** C6 (as amended).  A frame on which the swap operation raises is
    returned unmodified, without [recv] raising.  A frame for which
    the swap operation returns no image, or an image of size zero, is
    returned with the black frame as picture and its own timing.  With
    a swapper that raises at every call, a run of frames of any
    length (100 in particular) yields as many frames, each equal to
    its input. *)
Theorem swap_failure_is_absorbed (env : Env) :
  (forall frame tr w f e,
     source_face tr = Some f ->
     target_size (track_frame_processor tr) = None ->
     bgr24_picture (planes frame) ->
     (swap_face env (track_swap_engine tr) (planes frame) (planes frame)
                (Some f) None w).1 = Raise e ->
     (recv env frame (tr, w)).1 = Ok frame) /\
  (forall frame tr w f o,
     source_face tr = Some f ->
     target_size (track_frame_processor tr) = None ->
     bgr24_picture (planes frame) ->
     (swap_face env (track_swap_engine tr) (planes frame) (planes frame)
                (Some f) None w).1 = Ok o ->
     o = None \/ (exists r, o = Some r /\ size r = 0%nat) ->
     (recv env frame (tr, w)).1
     = Ok {| pts := pts frame; time_base := time_base frame;
             planes := black_frame |}) /\
  (forall frames tr w f,
     swapper_always_raises env ->
     source_face tr = Some f ->
     target_size (track_frame_processor tr) = None ->
     Forall (fun fr => bgr24_picture (planes fr)) frames ->
     (recv_all env frames (tr, w)).1 = map Ok frames /\
     length (recv_all env frames (tr, w)).1 = length frames /\
     source_face (recv_all env frames (tr, w)).2.1 = Some f).
Proof.
  split; [|split].
  - intros frame tr w f e Hsf Hts Hb Hswap.
    rewrite (recv_cached env frame tr w f Hsf Hts Hb). cbn zeta.
    rewrite Hswap. rewrite finish_unchanged by exact Hb. cbn [fst].
    rewrite frame_eta. reflexivity.
  - intros frame tr w f o Hsf Hts Hb Hswap Ho.
    rewrite (recv_cached env frame tr w f Hsf Hts Hb). cbn zeta.
    rewrite Hswap. rewrite finish_black by exact Ho. reflexivity.
  - intros frames tr w f Hfail Hsf Hts Hall. split; [|split].
    + eapply recv_all_swap_failing; eauto.
    + apply recv_all_length.
    + apply recv_all_keeps_cache. exact Hsf.
Qed.

Lemma swap_failure_is_absorbed_witness :
  (recv failing_detector_env sample_frame (cached_track, initial_world)).1
  = Ok sample_frame /\
  (recv (constant_env [face_a] (Ok None) (Ok "a") (Ok (200%nat, JNull)))
        sample_frame (cached_track, initial_world)).1
  = Ok {| pts := Some 3000; time_base := Some (1 # 90000)%Q;
          planes := black_frame |} /\
  (recv_all quiet_env (replicate 100 sample_frame)
            (cached_track, initial_world)).1
  = map Ok (replicate 100 sample_frame) /\
  length (recv_all quiet_env (replicate 100 sample_frame)
                   (cached_track, initial_world)).1 = 100%nat.
Proof.
  split; [|split].
  - exact (proj1 (swap_failure_is_absorbed failing_detector_env)
                 sample_frame cached_track initial_world
                 (analyzer_face face_a) (CollaboratorError 2)
                 eq_refl eq_refl sample_picture_bgr24 eq_refl).
  - apply (proj1 (proj2 (swap_failure_is_absorbed
                           (constant_env [face_a] (Ok None) (Ok "a")
                                         (Ok (200%nat, JNull)))))
                 sample_frame cached_track initial_world
                 (analyzer_face face_a) None
                 eq_refl eq_refl sample_picture_bgr24 eq_refl).
    left. reflexivity.
  - destruct (proj2 (proj2 (swap_failure_is_absorbed quiet_env))
                    (replicate 100 sample_frame) cached_track initial_world
                    (analyzer_face face_a)) as (H1 & H2 & _).
    + intros t tgt tf src sf. eexists. reflexivity.
    + reflexivity.
    + reflexivity.
    + apply Forall_replicate. exact sample_picture_bgr24.
    + split; [exact H1 | exact H2].
Defined.

(** ** Frames without a face *)

Lemma gray2bgr_spec {A} (l : list A) : gray2bgr l = spec_expand_gray l.
Proof.
  unfold spec_expand_gray. induction l as [|g l IH]; simpl; [reflexivity|].
  rewrite IH. reflexivity.
Qed.

Lemma bgra2bgr_spec {A} : forall l : list A, bgra2bgr l = spec_drop_fourth l.
Proof.
  unfold spec_drop_fourth.
  fix IH 1. intros [|b [|g [|r [|a l']]]]; try reflexivity.
  simpl. rewrite IH. reflexivity.
Qed.

Lemma gray2bgr_bytes l : Forall byte_range l -> Forall byte_range (gray2bgr l).
Proof.
  induction 1 as [|g l Hg _ IH]; simpl; [constructor|].
  do 3 (constructor; [exact Hg|]). exact IH.
Qed.

Lemma bgra2bgr_bytes : forall l,
  Forall byte_range l -> Forall byte_range (bgra2bgr l).
Proof.
  fix IH 1. intros [|b [|g [|r [|a l']]]] H; simpl; try solve [constructor].
  inversion H as [|? ? Hb H1]; subst.
  inversion H1 as [|? ? Hg H2]; subst.
  inversion H2 as [|? ? Hr H3]; subst.
  inversion H3 as [|? ? Ha H4]; subst.
  constructor; [exact Hb|]. constructor; [exact Hg|].
  constructor; [exact Hr|]. apply IH. exact H4.
Qed.

Lemma preprocess_normalizes env fp a :
  target_size fp = None -> uint8_picture a ->
  preprocess_frame env fp a = Ok (spec_normalize_layout a) /\
  bgr24_picture (spec_normalize_layout a).
Proof.
  intros Hts ((l & Hd & Hl) & Hsz & (h & w & Hsh)).
  destruct a as [shp d]. simpl in Hd, Hsh. subst d.
  unfold preprocess_frame, spec_normalize_layout, cvtColor, bgr24_picture,
         uint8_array, ndim, size in *.
  rewrite Hts. cbn [mbind res_bind shape data] in *.
  destruct Hsh as [-> | [-> | ->]]; cbn [length Nat.eqb lookup] in *.
  - destruct (foldr Nat.mul 1%nat [h; w] =? 0)%nat eqn:E;
      [apply Nat.eqb_eq in E; contradiction|].
    cbn [map_samples]. rewrite gray2bgr_spec. split; [reflexivity|].
    repeat split; eauto.
    + eexists. split; [reflexivity|]. rewrite <- gray2bgr_spec.
      apply gray2bgr_bytes. exact Hl.
    + cbn in *. lia.
  - cbn. split; [reflexivity|]. repeat split; eauto.
  - cbn [list_lookup Nat.eqb].
    destruct (foldr Nat.mul 1%nat [h; w; 4%nat] =? 0)%nat eqn:E;
      [apply Nat.eqb_eq in E; contradiction|].
    cbn [map_samples]. rewrite bgra2bgr_spec. split; [reflexivity|].
    repeat split; eauto.
    + eexists. split; [reflexivity|]. rewrite <- bgra2bgr_spec.
      apply bgra2bgr_bytes. exact Hl.
    + cbn in *. lia.
Qed.

(** C8.  A frame in which the detector finds no face, processed by a
    track with an empty cache, comes out with the same timing and with
    its picture changed by layout normalization only: a single-channel
    picture is expanded to three channels, a four-channel picture loses
    its fourth channel, a three-channel picture is unchanged.  The
    cache stays empty. *)
Theorem no_face_frame_passes_through (env : Env) (frame : VideoFrame)
    (tr : ProcessedVideoTrack) (w : World) :
  source_face tr = None ->
  target_size (track_frame_processor tr) = None ->
  uint8_picture (planes frame) ->
  (detect_faces env (track_swap_engine tr)
                (spec_normalize_layout (planes frame)) w).1 = Ok [] ->
  (recv env frame (tr, w)).1
  = Ok {| pts := pts frame; time_base := time_base frame;
          planes := spec_normalize_layout (planes frame) |} /\
  source_face (recv env frame (tr, w)).2.1 = None /\
  (forall h wd, shape (planes frame) = [h; wd; 3%nat] ->
                spec_normalize_layout (planes frame) = planes frame).
Proof.
  intros Hsf Hts Hpic Hdet.
  destruct (preprocess_normalizes env _ _ Hts Hpic) as [Hpre Hb].
  rewrite (recv_no_face env frame tr w _ Hsf Hpre Hdet).
  rewrite finish_unchanged by exact Hb. cbn [fst snd].
  repeat split; [exact Hsf|].
  intros h wd Hsh. unfold spec_normalize_layout. rewrite Hsh. reflexivity.
Qed.

Lemma no_face_frame_witness :
  (recv quiet_env gray_frame (fresh_track, initial_world)).1
  = Ok {| pts := Some 9000; time_base := Some (1 # 90000)%Q;
          planes := {| shape := [1; 2; 3]%nat;
                       data := U8 [5; 5; 5; 6; 6; 6] |} |} /\
  (recv quiet_env bgra_frame (fresh_track, initial_world)).1
  = Ok {| pts := Some 12000; time_base := Some (1 # 90000)%Q;
          planes := {| shape := [1; 1; 3]%nat; data := U8 [1; 2; 3] |} |} /\
  (recv quiet_env sample_frame (fresh_track, initial_world)).1
  = Ok sample_frame /\
  spec_normalize_layout sample_picture = sample_picture.
Proof.
  split; [|split; [|split]].
  - apply (no_face_frame_passes_through quiet_env gray_frame fresh_track
             initial_world eq_refl eq_refl); [|reflexivity].
    repeat split.
    + exists [5; 6]. split; [reflexivity|].
      repeat constructor; unfold byte_range; lia.
    + vm_compute. discriminate.
    + exists 1%nat, 2%nat. left. reflexivity.
  - apply (no_face_frame_passes_through quiet_env bgra_frame fresh_track
             initial_world eq_refl eq_refl); [|reflexivity].
    repeat split.
    + exists [1; 2; 3; 255]. split; [reflexivity|].
      repeat constructor; unfold byte_range; lia.
    + vm_compute. discriminate.
    + exists 1%nat, 1%nat. right. right. reflexivity.
  - apply (no_face_frame_passes_through quiet_env sample_frame fresh_track
             initial_world eq_refl eq_refl); [|reflexivity].
    destruct sample_picture_bgr24 as (Hu & _ & Hsz).
    repeat split; [exact Hu | exact Hsz |].
    exists 1%nat, 2%nat. right. left. reflexivity.
  - refine (proj2 (proj2 (no_face_frame_passes_through quiet_env sample_frame
                            fresh_track initial_world eq_refl eq_refl _
                            eq_refl)) 1%nat 2%nat eq_refl).
    destruct sample_picture_bgr24 as (Hu & _ & Hsz).
    repeat split; [exact Hu | exact Hsz |].
    exists 1%nat, 2%nat. right. left. reflexivity.
Defined.

(** ** Sessions held by the server *)

Lemma handle_offer_eq env offer_sdp srv w :
  handle_offer env offer_sdp (srv, w) =
  let pc := fresh (dom (pcs srv)) in
  match pc_negotiate env (tick w) offer_sdp with
  | Ok answer =>
      (Ok answer,
       (set_pcs (fun m => <[pc := with_answer answer new_pc]> m) srv,
        negotiated offer_sdp w))
  | Raise e =>
      (Raise e,
       (set_pcs (fun m => <[pc := new_pc]> m) srv, negotiated offer_sdp w))
  end.
Proof.
  unfold handle_offer, create_peer_connection. unfold_monad. cbn.
  destruct (pc_negotiate env (tick w) offer_sdp) as [answer | e]; cbn;
    [|reflexivity].
  unfold set_pcs. cbn. rewrite alter_insert_eq. reflexivity.
Qed.

Lemma fresh_pc_unused (m : gmap positive RTCPeerConnection) :
  m !! fresh (dom m) = None.
Proof. apply not_elem_of_dom. apply is_fresh. Qed.

Lemma count_insert_fresh (P : positive * RTCPeerConnection -> Prop)
    `{!forall p, Decision (P p)} (m : gmap positive RTCPeerConnection) i x :
  m !! i = None ->
  length (filter P (map_to_list (<[i := x]> m)))
  = ((if decide (P (i, x)) then 1 else 0)
     + length (filter P (map_to_list m)))%nat.
Proof.
  intros Hi.
  rewrite (Permutation_length
             (filter_Permutation P _ _ (map_to_list_insert m i x Hi))).
  rewrite filter_cons. destruct (decide (P (i, x))); reflexivity.
Qed.

(** An offer handed to [handle_offer] always leaves one more session
    in the set, in a non-terminal state, whether or not the negotiation
    succeeds. *)
Lemma handle_offer_adds_session env offer_sdp srv w :
  non_terminal_sessions (handle_offer env offer_sdp (srv, w)).2.1
  = S (non_terminal_sessions srv).
Proof.
  rewrite handle_offer_eq. cbn zeta. unfold non_terminal_sessions.
  destruct (pc_negotiate env (tick w) offer_sdp) as [answer | e];
    cbn [fst snd pcs set_pcs];
    rewrite count_insert_fresh by apply fresh_pc_unused;
    rewrite decide_True; [reflexivity | | reflexivity |];
    unfold non_terminal; cbn; split; discriminate.
Qed.

(** ** The two ingress paths, unfolded *)

Lemma handle_signaling_offer_eq env offer_data n :
  handle_signaling_offer env offer_data n =
  match the_webrtc_server n with
  | None =>
      (Raise (HTTPException 500 "WebRTC server not initialized"), n)
  | Some srv =>
      let offer_sdp := default JNull (offer_data !! "offer") in
      if truthy offer_sdp then
        let h := handle_offer env offer_sdp (srv, world n) in
        (match h.1 with
         | Ok answer_sdp =>
             Ok (offer_response answer_sdp
                   (default (JStr "unknown") (offer_data !! "session_id")))
         | Raise e => Raise (HTTPException 500 (str_exn e))
         end,
         with_state n h.2)
      else (Raise (HTTPException 500 "Missing offer SDP"), n)
  end.
Proof.
  unfold handle_signaling_offer, with_server, with_state. unfold_monad. cbn.
  destruct (the_webrtc_server n) as [srv|] eqn:Hsrv; [|reflexivity].
  destruct (truthy (default JNull (offer_data !! "offer"))); cbn;
    [|reflexivity].
  rewrite Hsrv.
  destruct (handle_offer env (default JNull (offer_data !! "offer"))
              (srv, world n)) as [[a | e] [srv' w']]; reflexivity.
Qed.

Lemma signaling_polling_step_eq env n :
  signaling_polling_step env n =
  let w1 := slept 1 (world n) in
  match the_signaling_client n with
  | None => (Ok tt, with_world n w1)
  | Some c =>
      let ro := receive_offer env c w1 in
      match ro.1, the_webrtc_server n with
      | Ok (Some (JObj m)), Some srv =>
          let offer_sdp := default JNull (m !! "offer") in
          let session_id := default JNull (m !! "session_id") in
          if truthy offer_sdp then
            let h := handle_offer env offer_sdp (srv, ro.2) in
            match h.1 with
            | Ok answer_sdp =>
                (Ok tt,
                 with_state n
                   (h.2.1, (send_answer env c answer_sdp session_id h.2.2).2))
            | Raise _ => (Ok tt, with_state n h.2)
            end
          else (Ok tt, with_world n ro.2)
      | _, _ => (Ok tt, with_world n ro.2)
      end
  end.
Proof.
  unfold signaling_polling_step, with_server, with_state, with_world, in_world,
         json_get, sleep, slept.
  unfold_monad. cbn.
  destruct (the_signaling_client n) as [c|] eqn:Hc; [|reflexivity].
  cbn.
  destruct (receive_offer env c _) as [[[offer|] | e] w2]; cbn;
    try reflexivity.
  destruct (the_webrtc_server n) as [srv|] eqn:Hsrv; cbn;
    [|destruct offer; reflexivity].
  destruct offer; cbn; try reflexivity.
  destruct (truthy (default JNull (m !! "offer"))); cbn; [|reflexivity].
  rewrite ?Hsrv.
  destruct (handle_offer env (default JNull (m !! "offer")) (srv, w2))
    as [[a | e] [srv' w']]; cbn; [|reflexivity].
  destruct (send_answer env c a (default JNull (m !! "session_id")) w')
    as [[b | e] w3]; reflexivity.
Qed.

Lemma health_reporting_step_eq env cfg n :
  the_webrtc_server (health_reporting_step env cfg n).2 = the_webrtc_server n /\
  the_signaling_client (health_reporting_step env cfg n).2
  = the_signaling_client n /\
  clock (world (health_reporting_step env cfg n).2)
  = clock (world n) + config.health_check_interval cfg.
Proof.
  unfold health_reporting_step, in_world, sleep, send_health_update.
  unfold_monad. cbn.
  destruct (the_signaling_client n) as [c|]; cbn; [|auto].
  destruct (truthy_str (orchestrator_url c)); cbn; [|auto].
  destruct (negb (enabled c)); cbn; [auto|].
  destruct (http_post env _ _ _); cbn; auto.
Qed.

(** C10.  A push-path submission whose body holds an offer SDP and no
    [session_id] key, on a node whose server is initialized and for
    which the negotiation yields an answer, succeeds: the response
    carries that answer and the string ["unknown"] as session id. *)
Theorem push_offer_without_session_id_is_unknown (env : Env)
    (offer_data : gmap string json) (n : Node) (srv : WebRTCServer)
    (offer_sdp : json) (answer : string) :
  the_webrtc_server n = Some srv ->
  offer_data !! "offer" = Some offer_sdp ->
  truthy offer_sdp = true ->
  offer_data !! "session_id" = None ->
  pc_negotiate env (tick (world n)) offer_sdp = Ok answer ->
  (handle_signaling_offer env offer_data n).1
  = Ok (offer_response answer (JStr "unknown")) /\
  offer_response answer (JStr "unknown") !! "session_id"
  = Some (JStr "unknown") /\
  offer_response answer (JStr "unknown") !! "answer" = Some (JStr answer).
Proof.
  intros Hsrv Hoffer Htruthy Hsid Hneg.
  rewrite handle_signaling_offer_eq, Hsrv. cbn zeta.
  rewrite Hoffer, Hsid. cbn [default from_option id].
  rewrite Htruthy. rewrite handle_offer_eq. cbn zeta.
  rewrite Hneg. cbn [fst snd].
  split; [reflexivity|]. unfold offer_response. split.
  - rewrite lookup_insert_ne by discriminate. apply lookup_insert_eq.
  - apply lookup_insert_eq.
Qed.

Lemma push_offer_without_session_id_witness :
  (handle_signaling_offer quiet_env (<["offer" := JStr "v=0 offer"]> ∅)
                          (initial_node None)).1
  = Ok (offer_response "v=0 answer" (JStr "unknown")).
Proof.
  exact (proj1 (push_offer_without_session_id_is_unknown quiet_env
                  (<["offer" := JStr "v=0 offer"]> ∅) (initial_node None)
                  (new_server insightface_engine plain_processor)
                  (JStr "v=0 offer") "v=0 answer"
                  eq_refl eq_refl eq_refl eq_refl eq_refl)).
Defined.

(** ** The pull path *)

Lemma truthy_nonempty_dict (m : gmap string json) k v :
  m !! k = Some v -> truthy (JObj m) = true.
Proof.
  intros Hk. simpl. apply negb_true_iff. apply bool_decide_eq_false.
  intros ->. rewrite lookup_empty in Hk. discriminate.
Qed.

Lemma receive_offer_dict env c w m k v :
  enabled c = true ->
  http_get env (tick w) (node_url c "offers") = Ok (200%nat, JObj m) ->
  m !! k = Some v ->
  receive_offer env c w
  = (Ok (Some (JObj m)),
     {| clock := clock w; tick := S (tick w);
        trace := trace w ++ [EvHttpGet (node_url c "offers")] |}).
Proof.
  intros Hen Hget Hk. unfold receive_offer. rewrite Hen. cbn [negb].
  unfold_monad. cbn. rewrite Hget. cbn [Nat.eqb].
  rewrite (truthy_nonempty_dict m k v Hk). reflexivity.
Qed.

Lemma send_answer_trace env c answer sid w :
  enabled c = true ->
  trace (send_answer env c answer sid w).2
  = trace w ++ [EvHttpPost (node_url c "answers") (answer_body answer sid)].
Proof.
  intros Hen. unfold send_answer. rewrite Hen. cbn [negb].
  unfold_monad. cbn.
  destruct (http_post env (tick w) _ _); reflexivity.
Qed.

(** C9.  One iteration of the poll loop that receives an offer with
    session id [sid], and whose negotiation yields [answer], makes
    exactly these collaborator calls: the sleep, the poll, the
    negotiation, and one POST to the answers endpoint whose body holds
    [answer] under the session id [sid]. *)
Theorem polled_offer_answer_dispatched_once (env : Env) (n : Node)
    (c : SignalingClient) (srv : WebRTCServer) (m : gmap string json)
    (offer_sdp sid : json) (answer : string) :
  the_signaling_client n = Some c ->
  enabled c = true ->
  the_webrtc_server n = Some srv ->
  http_get env (tick (world n)) (node_url c "offers")
  = Ok (200%nat, JObj m) ->
  m !! "offer" = Some offer_sdp ->
  truthy offer_sdp = true ->
  m !! "session_id" = Some sid ->
  pc_negotiate env (S (tick (world n))) offer_sdp = Ok answer ->
  trace (world (signaling_polling_step env n).2)
  = trace (world n)
    ++ [EvSleep 1; EvHttpGet (node_url c "offers"); EvNegotiate offer_sdp;
        EvHttpPost (node_url c "answers") (answer_body answer sid)] /\
  answer_body answer sid !! "session_id" = Some sid /\
  answer_body answer sid !! "answer" = Some (JStr answer).
Proof.
  intros Hc Hen Hsrv Hget Hoffer Htruthy Hsid Hneg.
  split; [|split].
  - rewrite signaling_polling_step_eq, Hc. cbn zeta.
    rewrite (receive_offer_dict env c (slept 1 (world n)) m "offer" offer_sdp
               Hen Hget Hoffer).
    cbn [fst snd]. rewrite Hsrv. cbn zeta. rewrite Hoffer, Hsid.
    cbn [default from_option id]. rewrite Htruthy. rewrite handle_offer_eq. cbn zeta.
    cbn [tick slept]. rewrite Hneg. cbn [fst snd with_state world].
    rewrite send_answer_trace by exact Hen.
    cbn [negotiated trace slept]. rewrite <- !app_assoc. reflexivity.
  - unfold answer_body. apply lookup_insert_eq.
  - unfold answer_body. rewrite lookup_insert_ne by discriminate.
    apply lookup_insert_eq.
Qed.

Lemma polled_offer_answer_witness :
  let env := constant_env [] (Ok None) (Ok "v=0 answer")
                          (Ok (200%nat, JObj offer_s1)) in
  trace (world (signaling_polling_step env
                  (initial_node (Some orchestrated_client))).2)
  = [EvSleep 1;
     EvHttpGet "http://orchestrator/nodes/node-1/offers";
     EvNegotiate (JStr "v=0 offer");
     EvHttpPost "http://orchestrator/nodes/node-1/answers"
                (answer_body "v=0 answer" (JStr "s1"))].
Proof.
  intros env.
  exact (proj1 (polled_offer_answer_dispatched_once env
                  (initial_node (Some orchestrated_client))
                  orchestrated_client
                  (new_server insightface_engine plain_processor)
                  offer_s1 (JStr "v=0 offer") (JStr "s1") "v=0 answer"
                  eq_refl eq_refl eq_refl eq_refl eq_refl eq_refl
                  eq_refl eq_refl)).
Defined.

(** ** Admission *)

Lemma receive_offer_slept env c w s :
  (receive_offer env c (slept s w)).1 = (receive_offer env c w).1.
Proof.
  unfold receive_offer. destruct (negb (enabled c)); [reflexivity|].
  unfold_monad. cbn.
  destruct (http_get env (tick w) _) as [[status data] | e]; cbn;
    [|reflexivity].
  destruct (status =? 200)%nat; reflexivity.
Qed.

Lemma attempt_sessions env a n :
  node_sessions (attempt env a n)
  = (node_sessions n + count_offer (offered_sdp env a n))%nat.
Proof.
  unfold attempt, offered_sdp, node_sessions, body_sdp, count_offer.
  destruct a as [offer_data|].
  - rewrite handle_signaling_offer_eq.
    destruct (the_webrtc_server n) as [srv|] eqn:Hsrv; cbn zeta.
    + destruct (truthy (default JNull (offer_data !! "offer"))).
      * cbn [snd with_state the_webrtc_server].
        rewrite handle_offer_adds_session. lia.
      * cbn [snd]. rewrite Hsrv. lia.
    + cbn [snd]. rewrite Hsrv. reflexivity.
  - rewrite signaling_polling_step_eq. cbn zeta.
    destruct (the_signaling_client n) as [c|] eqn:Hc.
    + rewrite receive_offer_slept.
      destruct (the_webrtc_server n) as [srv|] eqn:Hsrv.
      * destruct (receive_offer env c (world n)).1 as [[[]|] | e];
          cbn [snd with_world the_webrtc_server]; rewrite ?Hsrv; try lia.
        destruct (truthy (default JNull (m !! "offer")));
          [|cbn [snd with_world the_webrtc_server]; rewrite Hsrv; lia].
        pose proof (handle_offer_adds_session env
                      (default JNull (m !! "offer")) srv
                      (receive_offer env c (slept 1 (world n))).2) as Hadd.
        destruct (handle_offer env (default JNull (m !! "offer"))
                    (srv, (receive_offer env c (slept 1 (world n))).2))
          as [[answer | e] [srv' w']];
          cbn [fst snd with_state the_webrtc_server] in *; lia.
      * destruct (receive_offer env c (world n)).1 as [[[]|] | e];
          cbn [snd with_world the_webrtc_server]; rewrite ?Hsrv; reflexivity.
    + cbn [snd with_world the_webrtc_server].
      destruct (the_webrtc_server n); lia.
Qed.

(** C1 (counterexample).  With the default capacity of one session, two
    offers submitted in a row are both answered, and two sessions are
    then in a non-terminal state. *)
Lemma capacity_exceeded_by_second_offer :
  let body : gmap string json := <["offer" := JStr "v=0 offer"]> ∅ in
  let n0 := initial_node None in
  let n1 := (handle_signaling_offer quiet_env body n0).2 in
  let n2 := (handle_signaling_offer quiet_env body n1).2 in
  config.max_sessions config.from_env = 1 /\
  is_ok (handle_signaling_offer quiet_env body n0).1 = true /\
  is_ok (handle_signaling_offer quiet_env body n1).1 = true /\
  node_sessions n2 = 2%nat /\
  Z.of_nat (node_sessions n2) > config.max_sessions config.from_env.
Proof.
  intros body n0 n1 n2.
  repeat split; vm_compute; reflexivity.
Qed.

(** C1 (as amended).  No admission is refused for capacity.  Along any
    sequence of admission attempts, through either path, the number of
    non-terminal sessions grows by exactly one for each offer handed to
    the server, whatever [max_sessions] is; and a push submission that
    carries an offer fails only when the negotiation fails. *)
Theorem admissions_are_not_capped (env : Env) :
  (forall l n,
     node_sessions (attempt_all env l n)
     = (node_sessions n + offers_handed env l n)%nat) /\
  (forall offer_data n srv offer_sdp,
     the_webrtc_server n = Some srv ->
     body_sdp offer_data = Some offer_sdp ->
     is_ok (handle_signaling_offer env offer_data n).1
     = is_ok (pc_negotiate env (tick (world n)) offer_sdp)).
Proof.
  split.
  - induction l as [|a l IH]; intros n; simpl; [lia|].
    rewrite IH, attempt_sessions. lia.
  - intros offer_data n srv offer_sdp Hsrv Hbody.
    unfold body_sdp in Hbody.
    rewrite handle_signaling_offer_eq, Hsrv. cbn zeta.
    destruct (truthy (default JNull (offer_data !! "offer")));
      [|discriminate].
    injection Hbody as <-. rewrite handle_offer_eq. cbn zeta.
    destruct (pc_negotiate env (tick (world n)) _); reflexivity.
Qed.

Lemma admissions_are_not_capped_witness :
  let body : gmap string json := <["offer" := JStr "v=0 offer"]> ∅ in
  node_sessions (attempt_all quiet_env
                   [PushOffer body; PollOffer; PushOffer body]
                   (initial_node None)) = 2%nat /\
  is_ok (handle_signaling_offer quiet_env body (initial_node None)).1 = true.
Proof.
  intros body. split.
  - exact (proj1 (admissions_are_not_capped quiet_env)
                 [PushOffer body; PollOffer; PushOffer body]
                 (initial_node None)).
  - exact (proj2 (admissions_are_not_capped quiet_env) body
                 (initial_node None)
                 (new_server insightface_engine plain_processor)
                 (JStr "v=0 offer") eq_refl eq_refl).
Defined.

(** ** Idle sessions *)

Lemma iterate_health_server env cfg k : forall n,
  the_webrtc_server (iterate k (health_reporting_step env cfg) n)
  = the_webrtc_server n.
Proof.
  induction k as [|k IH]; intros n; simpl; [reflexivity|].
  rewrite IH. apply health_reporting_step_eq.
Qed.

Lemma iterate_health_clock env cfg k : forall n,
  clock (world (iterate k (health_reporting_step env cfg) n))
  = clock (world n) + Z.of_nat k * config.health_check_interval cfg.
Proof.
  induction k as [|k IH]; intros n; [simpl; lia|].
  cbn [iterate]. rewrite IH.
  destruct (health_reporting_step_eq env cfg n) as (_ & _ & ->). lia.
Qed.

(** C2 (counterexample).  A connected session sees no frame for eleven
    health-check intervals, 330 seconds, more than the idle timeout of
    300 seconds: the only events are the sleeps and the health reports
    of the loop.  After these eleven iterations the session is still
    registered and still counted as active, as every report said. *)
Lemma idle_session_survives_health_sweeps :
  let n' := iterate 11 (health_reporting_step quiet_env config.from_env)
                    idle_node in
  clock (world n') - clock (world idle_node)
  > config.idle_timeout config.from_env /\
  trace (world n')
  = concat (replicate 11
              [EvSleep 30;
               EvHttpPost "http://orchestrator/nodes/node-1/health"
                          (health_data quiet_env idle_node)]) /\
  health_data quiet_env idle_node !! "active_sessions" = Some (JNum 1) /\
  1%positive ∈ node_pcs n' /\
  active_sessions idle_node = 1%nat /\
  active_sessions n' = 1%nat.
Proof.
  intros n'.
  assert (Hsrv : the_webrtc_server n' = the_webrtc_server idle_node)
    by apply iterate_health_server.
  split; [vm_compute; reflexivity|].
  split; [vm_compute; reflexivity|].
  split; [vm_compute; reflexivity|].
  unfold node_pcs, active_sessions. rewrite Hsrv. cbn [idle_node
    the_webrtc_server pcs].
  split; [|split; vm_compute; reflexivity].
  rewrite dom_singleton_L. apply elem_of_singleton. reflexivity.
Qed.

Lemma on_connectionstatechange_dom pc state srv :
  dom (pcs (on_connectionstatechange pc state srv))
  = if decide (state = cs_failed \/ state = cs_closed)
    then dom (pcs srv) ∖ {[ pc ]}
    else dom (pcs srv).
Proof.
  unfold on_connectionstatechange.
  destruct state; cbn [set_pcs pcs];
    try (rewrite decide_False by (intros [|]; discriminate);
         apply dom_alter_L);
    rewrite decide_True by auto; apply dom_delete_L.
Qed.

Lemma polling_keeps_sessions env n :
  node_pcs n ⊆ node_pcs (signaling_polling_step env n).2.
Proof.
  unfold node_pcs. rewrite signaling_polling_step_eq. cbn zeta.
  destruct (the_signaling_client n) as [c|];
    [|cbn [snd with_world the_webrtc_server]; reflexivity].
  destruct (the_webrtc_server n) as [srv|] eqn:Hsrv;
    [|apply empty_subseteq].
  destruct (receive_offer env c (slept 1 (world n))) as [[[[]|] | e] w2];
    cbn [fst snd with_world the_webrtc_server]; rewrite ?Hsrv;
    try reflexivity.
  destruct (truthy (default JNull (m !! "offer")));
    [|cbn [snd with_world the_webrtc_server]; rewrite Hsrv; reflexivity].
  rewrite handle_offer_eq. cbn zeta.
  destruct (pc_negotiate env (tick w2) _);
    cbn [fst snd with_state the_webrtc_server set_pcs pcs];
    rewrite dom_insert_L; set_solver.
Qed.

(** C2 (as amended).  The node has no idle sweep.  Any number of
    iterations of the health-reporting loop leaves the server, the set
    of sessions and the active count as they were, however much time
    passes.  The poll loop never removes a session.  A session leaves
    the set when the transport reports its connection failed or
    closed, and on no other state change. *)
Theorem sessions_outlive_idle_time (env : Env) (cfg : config.Config) :
  (forall k n,
     let n' := iterate k (health_reporting_step env cfg) n in
     the_webrtc_server n' = the_webrtc_server n /\
     node_pcs n' = node_pcs n /\
     active_sessions n' = active_sessions n /\
     clock (world n')
     = clock (world n) + Z.of_nat k * config.health_check_interval cfg) /\
  (forall n, node_pcs n ⊆ node_pcs (signaling_polling_step env n).2) /\
  (forall pc state srv,
     dom (pcs (on_connectionstatechange pc state srv))
     = if decide (state = cs_failed \/ state = cs_closed)
       then dom (pcs srv) ∖ {[ pc ]}
       else dom (pcs srv)).
Proof.
  split; [|split].
  - intros k n n'. subst n'.
    pose proof (iterate_health_server env cfg k n) as Hsrv.
    unfold node_pcs, active_sessions. rewrite Hsrv.
    repeat split. apply iterate_health_clock.
  - apply polling_keeps_sessions.
  - apply on_connectionstatechange_dom.
Qed.

(** * Further properties *)

(** ** The signaling client *)

Lemma disabled_calls env self w a sid data info :
  enabled self = false ->
  send_answer env self a sid w = (Ok false, w) /\
  send_health_update env self data w = (Ok false, w) /\
  receive_offer env self w = (Ok None, w) /\
  register_node env self info w = (Ok false, w).
Proof.
  intros Hen.
  unfold send_answer, send_health_update, receive_offer, register_node.
  rewrite Hen. repeat split.
Qed.

(** X1.  A client that is not enabled (no open session, or no
    orchestrator URL) answers [False] or [None] from every method and
    performs no request: the world is left as it was.  A stopped client
    is in that case, and so is a client started from a configuration
    without orchestrator URL. *)
Theorem disabled_client_makes_no_request (env : Env) :
  (forall self w a sid data info,
     enabled self = false ->
     send_answer env self a sid w = (Ok false, w) /\
     send_health_update env self data w = (Ok false, w) /\
     receive_offer env self w = (Ok None, w) /\
     register_node env self info w = (Ok false, w)) /\
  (forall self, enabled (stop self) = false) /\
  (forall cfg, truthy_str (config.orchestrator_url cfg) = false ->
               enabled (start cfg) = false).
Proof.
  split; [|split].
  - intros. apply disabled_calls. assumption.
  - reflexivity.
  - intros cfg H. unfold enabled, start. cbn. rewrite H. reflexivity.
Qed.

Lemma disabled_client_witness :
  receive_offer quiet_env (start config.from_env) initial_world
  = (Ok None, initial_world) /\
  send_answer quiet_env (stop orchestrated_client) "a" (JStr "s1")
              initial_world
  = (Ok false, initial_world).
Proof.
  split.
  - exact (proj1 (proj2 (proj2
             (proj1 (disabled_client_makes_no_request quiet_env)
                    (start config.from_env) initial_world "a" JNull ∅ ∅
                    (proj2 (proj2 (disabled_client_makes_no_request quiet_env))
                           config.from_env eq_refl))))).
  - exact (proj1 (proj1 (disabled_client_makes_no_request quiet_env)
                        (stop orchestrated_client) initial_world "a"
                        (JStr "s1") ∅ ∅ eq_refl)).
Defined.

Lemma post_call env url body w :
  try_except
    (status ← call (EvHttpPost url body) (fun t => http_post env t url body);
     mret (status =? 200)%nat)
    (fun _ => mret false) w
  = (Ok (posted_ok (http_post env (tick w) url body)), posted url body w).
Proof.
  unfold_monad. cbn. destruct (http_post env (tick w) url body); reflexivity.
Qed.

Lemma enabled_posts env self w :
  enabled self = true ->
  (forall a sid,
     send_answer env self a sid w
     = (Ok (posted_ok (http_post env (tick w) (node_url self "answers")
                                 (answer_body a sid))),
        posted (node_url self "answers") (answer_body a sid) w)) /\
  (forall data,
     send_health_update env self data w
     = (Ok (posted_ok (http_post env (tick w) (node_url self "health") data)),
        posted (node_url self "health") data w)) /\
  (forall info,
     register_node env self info w
     = (Ok (posted_ok (http_post env (tick w) (register_url self)
                                 (register_body self info))),
        posted (register_url self) (register_body self info) w)).
Proof.
  intros Hen. unfold send_answer, send_health_update, register_node.
  rewrite Hen. cbn [negb]. repeat split; intros; apply post_call.
Qed.

(** X2.  An enabled client performs exactly one POST per call of
    [send_answer], [send_health_update] and [register_node], never
    raises, and answers [True] exactly when the orchestrator replied
    with status 200: any other status and any exception of the request
    give [False]. *)
Theorem post_methods_report_status_200 (env : Env) (self : SignalingClient)
    (w : World) :
  enabled self = true ->
  (forall a sid,
     send_answer env self a sid w
     = (Ok (posted_ok (http_post env (tick w) (node_url self "answers")
                                 (answer_body a sid))),
        posted (node_url self "answers") (answer_body a sid) w)) /\
  (forall data,
     send_health_update env self data w
     = (Ok (posted_ok (http_post env (tick w) (node_url self "health") data)),
        posted (node_url self "health") data w)) /\
  (forall info,
     register_node env self info w
     = (Ok (posted_ok (http_post env (tick w) (register_url self)
                                 (register_body self info))),
        posted (register_url self) (register_body self info) w)).
Proof. apply enabled_posts. Qed.

Lemma post_methods_witness :
  (send_answer quiet_env orchestrated_client "a" (JStr "s1") initial_world).1
  = Ok true /\
  (send_answer refusing_env orchestrated_client "a" (JStr "s1")
               initial_world).1 = Ok false /\
  (register_node refusing_env orchestrated_client ∅
                 (posted "u" ∅ initial_world)).1 = Ok false.
Proof.
  split; [|split].
  - rewrite (proj1 (post_methods_report_status_200 quiet_env
                      orchestrated_client initial_world eq_refl)).
    reflexivity.
  - rewrite (proj1 (post_methods_report_status_200 refusing_env
                      orchestrated_client initial_world eq_refl)).
    reflexivity.
  - rewrite (proj2 (proj2 (post_methods_report_status_200 refusing_env
                      orchestrated_client (posted "u" ∅ initial_world)
                      eq_refl))).
    reflexivity.
Defined.

(** X3.  [receive_offer] never raises, and it returns an offer exactly
    when the client is enabled and the poll answered with status 200
    and a truthy body: that body is the offer.  An empty dictionary, a
    null body, another status or a failed request give [None]. *)
Theorem receive_offer_returns_truthy_200_body (env : Env)
    (self : SignalingClient) (w : World) :
  exists o,
    (receive_offer env self w).1 = Ok o /\
    forall data,
      o = Some data <->
      enabled self = true /\
      http_get env (tick w) (node_url self "offers") = Ok (200%nat, data) /\
      truthy data = true.
Proof.
  unfold receive_offer.
  destruct (enabled self); cbn [negb].
  - unfold_monad. cbn.
    destruct (http_get env (tick w) (node_url self "offers"))
      as [[status data] | e]; cbn.
    + destruct (status =? 200)%nat eqn:Est; cbn.
      * apply Nat.eqb_eq in Est. subst status.
        destruct (truthy data) eqn:Etr; eexists; (split; [reflexivity|]);
          intros d; split.
        -- intros [= <-]. auto.
        -- intros (_ & [= <-] & _). reflexivity.
        -- discriminate.
        -- intros (_ & [= <-] & Ht). congruence.
      * exists None. split; [reflexivity|]. intros d. split; [discriminate|].
        intros (_ & Hd & _). apply Nat.eqb_neq in Est. congruence.
    + exists None. split; [reflexivity|]. intros d. split; [discriminate|].
      intros (_ & Hd & _). discriminate.
  - exists None. split; [reflexivity|]. intros d. split; [discriminate|].
    intros (Hd & _). discriminate.
Qed.

(** X4.  The registration body holds every entry of [node_info]
    unchanged, and the client's node id under ["node_id"] unless
    [node_info] has a ["node_id"] entry of its own, which then wins. *)
Theorem register_body_merges_node_info (self : SignalingClient)
    (node_info : gmap string json) :
  (forall k v, node_info !! k = Some v ->
               register_body self node_info !! k = Some v) /\
  (node_info !! "node_id" = None ->
   register_body self node_info !! "node_id"
   = Some (json_of_opt (node_id self))) /\
  dom (register_body self node_info) = dom node_info ∪ {[ "node_id" ]}.
Proof.
  unfold register_body. split; [|split].
  - intros k v Hk. apply lookup_union_Some_l. exact Hk.
  - intros Hnone. rewrite lookup_union_r by exact Hnone.
    apply lookup_singleton_eq.
  - rewrite dom_union_L, dom_singleton_L. reflexivity.
Qed.

Lemma register_body_witness :
  register_body orchestrated_client (<["status" := JStr "ready"]> ∅)
    !! "node_id" = Some (JStr "node-1") /\
  register_body orchestrated_client (<["node_id" := JStr "other"]> ∅)
    !! "node_id" = Some (JStr "other").
Proof.
  split.
  - exact (proj1 (proj2 (register_body_merges_node_info orchestrated_client
                           (<["status" := JStr "ready"]> ∅))) eq_refl).
  - exact (proj1 (register_body_merges_node_info orchestrated_client
                    (<["node_id" := JStr "other"]> ∅))
                 "node_id" (JStr "other") eq_refl).
Defined.

(** ** The server and its connections *)




Lemma server_eta (srv : WebRTCServer) :
  {| srv_swap_engine := srv_swap_engine srv;
     srv_frame_processor := srv_frame_processor srv;
     pcs := pcs srv |} = srv.
Proof. destruct srv. reflexivity. Qed.

(** X5.  An offer followed by the failure or the closing of the
    connection it created leaves the server exactly as it was before
    the offer, whether or not the negotiation had succeeded. *)
Theorem offer_then_close_restores_server (env : Env) (offer_sdp : json)
    (srv : WebRTCServer) (w : World) (state : ConnectionState) :
  state = cs_failed \/ state = cs_closed ->
  on_connectionstatechange (fresh (dom (pcs srv))) state
                           (handle_offer env offer_sdp (srv, w)).2.1
  = srv.
Proof.
  intros Hst. rewrite handle_offer_eq. cbn zeta.
  assert (Hdel : forall x,
    delete (fresh (dom (pcs srv))) (<[fresh (dom (pcs srv)) := x]> (pcs srv))
    = pcs srv).
  { intros x. rewrite delete_insert_eq. apply delete_id, fresh_pc_unused. }
  destruct (pc_negotiate env (tick w) offer_sdp); cbn [fst snd];
    destruct Hst as [-> | ->]; unfold on_connectionstatechange, set_pcs;
    cbn [pcs srv_swap_engine srv_frame_processor]; rewrite Hdel;
    apply server_eta.
Qed.

Lemma offer_then_close_witness :
  on_connectionstatechange 1%positive cs_closed
    (handle_offer quiet_env (JStr "v=0 offer")
                  (new_server insightface_engine plain_processor,
                   initial_world)).2.1
  = new_server insightface_engine plain_processor.
Proof.
  exact (offer_then_close_restores_server quiet_env (JStr "v=0 offer")
           (new_server insightface_engine plain_processor) initial_world
           cs_closed (or_intror eq_refl)).
Defined.



(** X7.  A connection-state report touches only the connection it is
    about.  For an unregistered connection it changes nothing; every
    other connection keeps its entry; and a report other than failed
    or closed keeps the connection registered with its local
    description, recording the new state. *)
Theorem state_change_touches_only_its_connection (pc : positive)
    (state : ConnectionState) (srv : WebRTCServer) :
  (pcs srv !! pc = None -> on_connectionstatechange pc state srv = srv) /\
  (forall pc', pc' <> pc ->
     pcs (on_connectionstatechange pc state srv) !! pc' = pcs srv !! pc') /\
  (forall c, pcs srv !! pc = Some c ->
     state <> cs_failed -> state <> cs_closed ->
     pcs (on_connectionstatechange pc state srv) !! pc
     = Some {| connectionState := state;
               localDescription := localDescription c |}).
Proof.
  split; [|split].
  - intros Hnone. unfold on_connectionstatechange, set_pcs.
    destruct state; cbn [pcs srv_swap_engine srv_frame_processor];
      rewrite ?(alter_id' _ _ _ Hnone), ?(delete_id _ _ Hnone);
      apply server_eta.
  - intros pc' Hne. unfold on_connectionstatechange.
    destruct state; cbn [set_pcs pcs];
      rewrite ?lookup_alter_ne, ?lookup_delete_ne by congruence;
      reflexivity.
  - intros c Hpc Hf Hc. unfold on_connectionstatechange.
    destruct state; cbn [set_pcs pcs]; try congruence;
      rewrite lookup_alter_eq, Hpc; reflexivity.
Qed.

Lemma state_change_witness :
  on_connectionstatechange 7%positive cs_closed
    (new_server insightface_engine plain_processor)
  = new_server insightface_engine plain_processor /\
  pcs (on_connectionstatechange 1%positive cs_disconnected
         (default (new_server insightface_engine plain_processor)
                  (the_webrtc_server idle_node))) !! 1%positive
  = Some {| connectionState := cs_disconnected;
            localDescription := Some "v=0 answer" |}.
Proof.
  split.
  - exact (proj1 (state_change_touches_only_its_connection 7%positive
                    cs_closed (new_server insightface_engine plain_processor))
                 eq_refl).
  - exact (proj2 (proj2 (state_change_touches_only_its_connection 1%positive
                    cs_disconnected
                    (default (new_server insightface_engine plain_processor)
                             (the_webrtc_server idle_node))))
                 {| connectionState := cs_connected;
                    localDescription := Some "v=0 answer" |}
                 eq_refl ltac:(discriminate) ltac:(discriminate)).
Defined.

(** ** The offer endpoint *)

(** X8.  Every failure of the offer endpoint is reported with status
    500: the 503 of a missing server and the 400 of a missing offer are
    raised inside the [try] block and replaced by the handler.  In
    these two cases nothing else happens: the node is unchanged. *)
Theorem push_failures_have_status_500 (env : Env)
    (offer_data : gmap string json) (n : Node) :
  (forall e, (handle_signaling_offer env offer_data n).1 = Raise e ->
             exists detail, e = HTTPException 500 detail) /\
  (the_webrtc_server n = None \/ body_sdp offer_data = None ->
   exists detail,
     handle_signaling_offer env offer_data n
     = (Raise (HTTPException 500 detail), n)).
Proof.
  rewrite handle_signaling_offer_eq. unfold body_sdp. split.
  - intros e.
    destruct (the_webrtc_server n) as [srv|]; cbn zeta;
      [|intros [= <-]; eauto].
    destruct (truthy (default JNull (offer_data !! "offer")));
      [|intros [= <-]; eauto].
    cbn [fst].
    destruct (handle_offer env _ (srv, world n)).1; [discriminate|].
    intros [= <-]. eauto.
  - intros Hcase.
    destruct (the_webrtc_server n) as [srv|]; cbn zeta; [|eauto].
    destruct (truthy (default JNull (offer_data !! "offer"))); [|eauto].
    destruct Hcase; discriminate.
Qed.

Lemma push_failures_witness :
  exists detail,
    handle_signaling_offer quiet_env (<["session_id" := JStr "s1"]> ∅)
                           (initial_node None)
    = (Raise (HTTPException 500 detail), initial_node None).
Proof.
  exact (proj2 (push_failures_have_status_500 quiet_env
                  (<["session_id" := JStr "s1"]> ∅) (initial_node None))
               (or_intror eq_refl)).
Defined.

(** X9.  When the negotiation of a pushed offer fails, the caller gets
    status 500, and the connection created for the offer stays in the
    set, in state new and without local description: nothing removes
    it. *)
Theorem failed_push_negotiation_keeps_connection (env : Env)
    (offer_data : gmap string json) (n : Node) (srv : WebRTCServer)
    (offer_sdp : json) (e : exn) :
  the_webrtc_server n = Some srv ->
  body_sdp offer_data = Some offer_sdp ->
  pc_negotiate env (tick (world n)) offer_sdp = Raise e ->
  (exists detail,
     (handle_signaling_offer env offer_data n).1
     = Raise (HTTPException 500 detail)) /\
  the_webrtc_server (handle_signaling_offer env offer_data n).2
  = Some (set_pcs (insert (fresh (dom (pcs srv))) new_pc) srv) /\
  pcs srv !! fresh (dom (pcs srv)) = None /\
  node_sessions (handle_signaling_offer env offer_data n).2
  = S (node_sessions n).
Proof.
  intros Hsrv Hbody Hneg. unfold body_sdp in Hbody.
  unfold node_sessions.
  rewrite handle_signaling_offer_eq, Hsrv. cbn zeta.
  destruct (truthy (default JNull (offer_data !! "offer"))); [|discriminate].
  injection Hbody as Hbody. rewrite Hbody.
  cbn [fst snd with_state the_webrtc_server].
  rewrite handle_offer_adds_session.
  rewrite handle_offer_eq. cbn zeta. rewrite Hneg. cbn [fst snd].
  repeat split; eauto. apply fresh_pc_unused.
Qed.

Lemma failed_push_negotiation_witness :
  node_sessions
    (handle_signaling_offer refusing_env (<["offer" := JStr "v=0 offer"]> ∅)
                            (initial_node None)).2 = 1%nat.
Proof.
  exact (proj2 (proj2 (proj2
           (failed_push_negotiation_keeps_connection refusing_env
              (<["offer" := JStr "v=0 offer"]> ∅) (initial_node None)
              (new_server insightface_engine plain_processor)
              (JStr "v=0 offer") InvalidStateError
              eq_refl eq_refl eq_refl)))).
Defined.

(** X10.  A pushed offer that carries a [session_id] entry gets that
    value back unchanged, whatever JSON value it is: a null session id
    is echoed as null, not replaced by ["unknown"]. *)
Theorem push_echoes_session_id (env : Env) (offer_data : gmap string json)
    (n : Node) (srv : WebRTCServer) (offer_sdp sid : json)
    (answer : string) :
  the_webrtc_server n = Some srv ->
  body_sdp offer_data = Some offer_sdp ->
  offer_data !! "session_id" = Some sid ->
  pc_negotiate env (tick (world n)) offer_sdp = Ok answer ->
  (handle_signaling_offer env offer_data n).1
  = Ok (offer_response answer sid) /\
  offer_response answer sid !! "session_id" = Some sid.
Proof.
  intros Hsrv Hbody Hsid Hneg. unfold body_sdp in Hbody.
  rewrite handle_signaling_offer_eq, Hsrv. cbn zeta.
  destruct (truthy (default JNull (offer_data !! "offer"))); [|discriminate].
  injection Hbody as Hbody. rewrite Hbody, Hsid.
  rewrite handle_offer_eq. cbn zeta. rewrite Hneg. cbn [fst snd].
  split; [reflexivity|]. unfold offer_response.
  rewrite lookup_insert_ne by discriminate. apply lookup_insert_eq.
Qed.

Lemma push_echoes_session_id_witness :
  (handle_signaling_offer quiet_env
     (<["session_id" := JNull]> (<["offer" := JStr "v=0 offer"]> ∅))
     (initial_node None)).1
  = Ok (offer_response "v=0 answer" JNull).
Proof.
  exact (proj1 (push_echoes_session_id quiet_env
                  (<["session_id" := JNull]> (<["offer" := JStr "v=0 offer"]> ∅))
                  (initial_node None)
                  (new_server insightface_engine plain_processor)
                  (JStr "v=0 offer") JNull "v=0 answer"
                  eq_refl eq_refl eq_refl eq_refl)).
Defined.

(** ** The background loops *)

Lemma health_data_slept env n s :
  health_data env (with_world n (slept s (world n))) = health_data env n.
Proof. reflexivity. Qed.

Lemma health_reporting_step_run env cfg n :
  health_reporting_step env cfg n =
  let w1 := slept (config.health_check_interval cfg) (world n) in
  (Ok tt,
   with_world n
     match the_signaling_client n with
     | Some c =>
         if truthy_str (orchestrator_url c) then
           (send_health_update env c (health_data env n) w1).2
         else w1
     | None => w1
     end).
Proof.
  unfold health_reporting_step, in_world, sleep, with_world, slept.
  unfold_monad. cbn.
  destruct (the_signaling_client n) as [c|]; cbn; [|reflexivity].
  destruct (truthy_str (orchestrator_url c)); cbn; [|reflexivity].
  change (health_data env _) with (health_data env n).
  destruct (send_health_update env c (health_data env n) _)
    as [[b | e] w2]; reflexivity.
Qed.

(** X11.  An iteration of the poll loop and an iteration of the
    health-report loop never raise, whatever the collaborators do:
    every exception is absorbed inside the iteration, so the loops go
    on. *)
Theorem background_iterations_never_raise (env : Env) (cfg : config.Config)
    (n : Node) :
  (signaling_polling_step env n).1 = Ok tt /\
  (health_reporting_step env cfg n).1 = Ok tt.
Proof.
  split.
  - rewrite signaling_polling_step_eq. cbn zeta.
    destruct (the_signaling_client n) as [c|]; [|reflexivity].
    destruct (receive_offer env c _).1 as [[[]|] | e];
      destruct (the_webrtc_server n) as [srv|]; try reflexivity.
    destruct (truthy _); [|reflexivity].
    destruct (handle_offer env _ _).1; reflexivity.
  - rewrite health_reporting_step_run. reflexivity.
Qed.

(** X12.  An enabled client makes the health iteration post exactly
    one report after the sleep, whose ["active_sessions"] entry is the
    number of connected sessions; the iteration changes neither the
    server nor the client, whatever the request returns.  Without an
    enabled client the iteration only sleeps. *)
Theorem health_iteration_posts_one_report (env : Env) (cfg : config.Config)
    (n : Node) :
  (forall c, the_signaling_client n = Some c -> enabled c = true ->
     trace (world (health_reporting_step env cfg n).2)
     = trace (world n)
       ++ [EvSleep (config.health_check_interval cfg);
           EvHttpPost (node_url c "health") (health_data env n)] /\
     health_data env n !! "active_sessions"
     = Some (JNum (Z.of_nat (active_sessions n)))) /\
  ((the_signaling_client n = None \/
    exists c, the_signaling_client n = Some c /\ enabled c = false) ->
   world (health_reporting_step env cfg n).2
   = slept (config.health_check_interval cfg) (world n)) /\
  the_webrtc_server (health_reporting_step env cfg n).2 = the_webrtc_server n /\
  the_signaling_client (health_reporting_step env cfg n).2
  = the_signaling_client n.
Proof.
  rewrite health_reporting_step_run. cbn zeta. cbn [snd with_world world
    the_webrtc_server the_signaling_client].
  split; [|split; [|split; reflexivity]].
  - intros c Hc Hen. rewrite Hc.
    assert (Hurl : truthy_str (orchestrator_url c) = true).
    { unfold enabled in Hen. apply andb_true_iff in Hen. apply Hen. }
    rewrite Hurl.
    rewrite (proj1 (proj2 (enabled_posts env c _ Hen))).
    cbn [snd posted trace slept]. rewrite <- app_assoc. split; [reflexivity|].
    unfold health_data. rewrite !lookup_insert_ne by discriminate.
    apply lookup_insert_eq.
  - intros [Hnone | (c & Hc & Hen)]; [rewrite Hnone; reflexivity|].
    rewrite Hc. destruct (truthy_str (orchestrator_url c)); [|reflexivity].
    rewrite (proj1 (proj2 (disabled_calls env c _ "" JNull _ ∅ Hen))).
    reflexivity.
Qed.

Lemma health_iteration_witness :
  trace (world (health_reporting_step quiet_env config.from_env idle_node).2)
  = [EvSleep 30;
     EvHttpPost "http://orchestrator/nodes/node-1/health"
                (health_data quiet_env idle_node)] /\
  health_data quiet_env idle_node !! "active_sessions" = Some (JNum 1) /\
  world (health_reporting_step quiet_env config.from_env (initial_node None)).2
  = slept 30 initial_world.
Proof.
  destruct (proj1 (health_iteration_posts_one_report quiet_env config.from_env
                     idle_node) orchestrated_client eq_refl eq_refl)
    as [Htrace Hactive].
  split; [exact Htrace|]. split; [exact Hactive|].
  exact (proj1 (proj2 (health_iteration_posts_one_report quiet_env
                         config.from_env (initial_node None)))
               (or_introl eq_refl)).
Defined.

Lemma receive_offer_world env c w :
  (receive_offer env c w).2
  = if enabled c then polled (node_url c "offers") w else w.
Proof.
  unfold receive_offer. destruct (enabled c); cbn [negb]; [|reflexivity].
  unfold_monad. cbn.
  destruct (http_get env (tick w) _) as [[status data] | e]; cbn;
    [|reflexivity].
  destruct (status =? 200)%nat; reflexivity.
Qed.

Lemma body_sdp_offer (m : gmap string json) o :
  body_sdp m = Some o ->
  default JNull (m !! "offer") = o /\ truthy o = true /\
  exists v, m !! "offer" = Some v.
Proof.
  unfold body_sdp. destruct (truthy (default JNull (m !! "offer"))) eqn:E;
    [|discriminate].
  intros [= <-]. repeat split; [exact E|].
  destruct (m !! "offer") as [v|]; [eauto | discriminate].
Qed.

(** X13.  A polled offer without [session_id] entry is negotiated like
    any other, and its answer is posted with a null session id. *)
Theorem polled_offer_without_session_id_posts_null (env : Env) (n : Node)
    (c : SignalingClient) (srv : WebRTCServer) (m : gmap string json)
    (offer_sdp : json) (answer : string) :
  the_signaling_client n = Some c ->
  enabled c = true ->
  the_webrtc_server n = Some srv ->
  http_get env (tick (world n)) (node_url c "offers")
  = Ok (200%nat, JObj m) ->
  body_sdp m = Some offer_sdp ->
  m !! "session_id" = None ->
  pc_negotiate env (S (tick (world n))) offer_sdp = Ok answer ->
  trace (world (signaling_polling_step env n).2)
  = trace (world n)
    ++ [EvSleep 1; EvHttpGet (node_url c "offers"); EvNegotiate offer_sdp;
        EvHttpPost (node_url c "answers") (answer_body answer JNull)] /\
  answer_body answer JNull !! "session_id" = Some JNull.
Proof.
  intros Hc Hen Hsrv Hget Hbody Hsid Hneg.
  destruct (body_sdp_offer m offer_sdp Hbody) as (Hdef & Htr & v & Hv).
  split; [|apply lookup_insert_eq].
  rewrite signaling_polling_step_eq, Hc. cbn zeta.
  rewrite (receive_offer_dict env c (slept 1 (world n)) m "offer" v
             Hen Hget Hv).
  cbn [fst snd]. rewrite Hsrv. cbn zeta. rewrite Hdef, Hsid, Htr.
  cbn [default from_option id].
  rewrite handle_offer_eq. cbn zeta.
  cbn [tick slept]. rewrite Hneg. cbn [fst snd with_state world].
  rewrite send_answer_trace by exact Hen.
  cbn [negotiated trace slept]. rewrite <- !app_assoc. reflexivity.
Qed.

Lemma polled_offer_without_session_id_witness :
  let env := constant_env [] (Ok None) (Ok "v=0 answer")
                          (Ok (200%nat, JObj offer_without_id)) in
  trace (world (signaling_polling_step env
                  (initial_node (Some orchestrated_client))).2)
  = [EvSleep 1;
     EvHttpGet "http://orchestrator/nodes/node-1/offers";
     EvNegotiate (JStr "v=0 offer");
     EvHttpPost "http://orchestrator/nodes/node-1/answers"
                (answer_body "v=0 answer" JNull)].
Proof.
  intros env.
  exact (proj1 (polled_offer_without_session_id_posts_null env
                  (initial_node (Some orchestrated_client))
                  orchestrated_client
                  (new_server insightface_engine plain_processor)
                  offer_without_id (JStr "v=0 offer") "v=0 answer"
                  eq_refl eq_refl eq_refl eq_refl eq_refl eq_refl eq_refl)).
Defined.

(** X14.  When the negotiation of a polled offer fails, the iteration
    ends there: no answer and no error is sent to the orchestrator,
    and the connection created for the offer stays registered. *)
Theorem failed_poll_negotiation_posts_nothing (env : Env) (n : Node)
    (c : SignalingClient) (srv : WebRTCServer) (m : gmap string json)
    (offer_sdp : json) (e : exn) :
  the_signaling_client n = Some c ->
  enabled c = true ->
  the_webrtc_server n = Some srv ->
  http_get env (tick (world n)) (node_url c "offers")
  = Ok (200%nat, JObj m) ->
  body_sdp m = Some offer_sdp ->
  pc_negotiate env (S (tick (world n))) offer_sdp = Raise e ->
  trace (world (signaling_polling_step env n).2)
  = trace (world n)
    ++ [EvSleep 1; EvHttpGet (node_url c "offers"); EvNegotiate offer_sdp] /\
  the_webrtc_server (signaling_polling_step env n).2
  = Some (set_pcs (insert (fresh (dom (pcs srv))) new_pc) srv).
Proof.
  intros Hc Hen Hsrv Hget Hbody Hneg.
  destruct (body_sdp_offer m offer_sdp Hbody) as (Hdef & Htr & v & Hv).
  rewrite signaling_polling_step_eq, Hc. cbn zeta.
  rewrite (receive_offer_dict env c (slept 1 (world n)) m "offer" v
             Hen Hget Hv).
  cbn [fst snd]. rewrite Hsrv. cbn zeta. rewrite Hdef, Htr.
  rewrite handle_offer_eq. cbn zeta.
  cbn [tick slept]. rewrite Hneg.
  cbn [fst snd with_state world the_webrtc_server negotiated trace slept].
  rewrite <- !app_assoc. split; reflexivity.
Qed.

Lemma failed_poll_negotiation_witness :
  trace (world (signaling_polling_step refusing_offer_env
                  (initial_node (Some orchestrated_client))).2)
  = [EvSleep 1;
     EvHttpGet "http://orchestrator/nodes/node-1/offers";
     EvNegotiate (JStr "v=0 offer")].
Proof.
  exact (proj1 (failed_poll_negotiation_posts_nothing refusing_offer_env
                  (initial_node (Some orchestrated_client))
                  orchestrated_client
                  (new_server insightface_engine plain_processor)
                  offer_s1 (JStr "v=0 offer") InvalidStateError
                  eq_refl eq_refl eq_refl eq_refl eq_refl eq_refl)).
Defined.

(** X15.  A poll iteration that gets no usable offer (no client, a
    disabled client, a failed or empty poll, a body that is not a
    dictionary or has no truthy ["offer"], or no server) creates no
    connection, negotiates nothing and posts nothing: it sleeps and, if
    the client is enabled, polls once. *)
Theorem poll_without_offer_changes_nothing (env : Env) (n : Node) :
  offered_sdp env PollOffer n = None ->
  the_webrtc_server (signaling_polling_step env n).2 = the_webrtc_server n /\
  trace (world (signaling_polling_step env n).2)
  = trace (world n)
    ++ EvSleep 1
       :: match the_signaling_client n with
          | Some c =>
              if enabled c then [EvHttpGet (node_url c "offers")] else []
          | None => []
          end.
Proof.
  unfold offered_sdp. intros Hnone.
  rewrite signaling_polling_step_eq. cbn zeta.
  destruct (the_signaling_client n) as [c|];
    [|cbn [snd with_world the_webrtc_server world slept trace];
      split; reflexivity].
  pose proof (receive_offer_world env c (slept 1 (world n))) as Hw.
  pose proof (receive_offer_slept env c (world n) 1) as Hr.
  assert (Htrace :
    trace (receive_offer env c (slept 1 (world n))).2
    = trace (world n)
      ++ EvSleep 1 :: (if enabled c then [EvHttpGet (node_url c "offers")]
                       else [])).
  { rewrite Hw. destruct (enabled c); cbn [polled slept trace];
      rewrite <- ?app_assoc; reflexivity. }
  rewrite <- Hr in Hnone.
  destruct (the_webrtc_server n) as [srv|] eqn:Hsrv.
  - destruct (receive_offer env c (slept 1 (world n))).1 as [[[]|] | e];
      cbn [snd with_world the_webrtc_server world];
      rewrite ?Hsrv; try (split; [reflexivity | exact Htrace]).
    unfold body_sdp in Hnone.
    destruct (truthy (default JNull (m !! "offer"))); [discriminate|].
    cbn [snd with_world the_webrtc_server world]. rewrite Hsrv.
    split; [reflexivity | exact Htrace].
  - destruct (receive_offer env c (slept 1 (world n))).1 as [[[]|] | e];
      cbn [snd with_world the_webrtc_server world];
      rewrite ?Hsrv; split; try reflexivity; exact Htrace.
Qed.

Lemma poll_without_offer_witness :
  trace (world (signaling_polling_step list_body_env
                  (initial_node (Some orchestrated_client))).2)
  = [EvSleep 1; EvHttpGet "http://orchestrator/nodes/node-1/offers"] /\
  trace (world (signaling_polling_step quiet_env (initial_node None)).2)
  = [EvSleep 1].
Proof.
  split.
  - exact (proj2 (poll_without_offer_changes_nothing list_body_env
                    (initial_node (Some orchestrated_client)) eq_refl)).
  - exact (proj2 (poll_without_offer_changes_nothing quiet_env
                    (initial_node None) eq_refl)).
Defined.

(** ** Face detection *)

Lemma above_threshold c :
  negb (Qle_bool c (1 # 2)) = true <-> (1 # 2 < c)%Q.
Proof.
  rewrite negb_true_iff. split.
  - intros H. apply Qnot_le_lt. intros Hle. apply Qle_bool_iff in Hle.
    congruence.
  - intros H. destruct (Qle_bool c (1 # 2)) eqn:E; [|reflexivity].
    apply Qle_bool_iff in E. exfalso. exact (Qlt_not_le _ _ H E).
Qed.

Lemma dnn_faces_shape h w detections :
  Forall (fun f => (1 # 2 < det_score f)%Q /\ length (bbox f) = 4%nat /\
                   landmark f = None /\ embedding f = None)
         (dnn_faces h w detections).
Proof.
  induction detections as [|d rest IH]; simpl; [constructor|].
  destruct (negb (Qle_bool (confidence d) (1 # 2))) eqn:E; [|exact IH].
  apply above_threshold in E. destruct (box d) as [[[x1 y1] x2] y2].
  constructor; [|exact IH]. cbn. auto.
Qed.

(** X16.  The DNN path keeps exactly the detections whose confidence
    is strictly above 0.5: every face it returns has such a score, a
    detection with such a confidence yields a face with that score, and
    a confidence of 0.5 or less yields none.  The faces have a
    four-number box and neither landmark nor embedding. *)
Theorem dnn_faces_keep_confident_detections (h w : nat)
    (detections : list Detection) :
  Forall (fun f => (1 # 2 < det_score f)%Q /\ length (bbox f) = 4%nat /\
                   landmark f = None /\ embedding f = None)
         (dnn_faces h w detections) /\
  (forall d, In d detections -> (1 # 2 < confidence d)%Q ->
             In (confidence d) (map det_score (dnn_faces h w detections))) /\
  (Forall (fun d => (confidence d <= 1 # 2)%Q) detections ->
   dnn_faces h w detections = []) /\
  (length (dnn_faces h w detections) <= length detections)%nat.
Proof.
  induction detections as [|d rest IH]; simpl.
  - repeat split; [constructor | intros d [] | lia].
  - destruct IH as (IHall & IHin & IHnone & IHlen).
    destruct (negb (Qle_bool (confidence d) (1 # 2))) eqn:E.
    + apply above_threshold in E.
      destruct (box d) as [[[x1 y1] x2] y2].
      repeat split.
      * constructor; [|exact IHall]. cbn. auto.
      * intros d' [<- | Hin] Hd'; cbn; [left; reflexivity|].
        right. apply IHin; assumption.
      * intros Hall. inversion Hall as [|? ? Hd _]; subst.
        exfalso. exact (Qlt_not_le _ _ E Hd).
      * cbn. lia.
    + repeat split.
      * exact IHall.
      * intros d' [<- | Hin] Hd'; [|apply IHin; assumption].
        apply above_threshold in Hd'. congruence.
      * intros Hall. inversion Hall; subst. apply IHnone. assumption.
      * lia.
Qed.

Lemma dnn_faces_witness :
  let weak := {| confidence := (1 # 2)%Q;
                 box := ((0 # 1)%Q, (0 # 1)%Q, (1 # 1)%Q, (1 # 1)%Q) |} in
  let strong := {| confidence := (3 # 4)%Q;
                   box := ((1 # 4)%Q, (1 # 4)%Q, (1 # 2)%Q, (1 # 2)%Q) |} in
  dnn_faces 480 640 [weak] = [] /\
  In (3 # 4)%Q (map det_score (dnn_faces 480 640 [weak; strong])).
Proof.
  intros weak strong. split.
  - apply (proj1 (proj2 (proj2
             (dnn_faces_keep_confident_detections 480 640 [weak])))).
    constructor; [|constructor]. vm_compute. discriminate.
  - apply (proj1 (proj2
             (dnn_faces_keep_confident_detections 480 640 [weak; strong]))
             strong); [right; left; reflexivity|].
    vm_compute. reflexivity.
Defined.

(** X17.  Without analyzer, [detect_faces] returns faces that have a
    four-number box and neither landmark nor embedding; on the Haar
    path every score is 1 and the box is [x, y, x + w, y + h] of the
    detected rectangle.  On the DNN path a frame with fewer than two
    dimensions makes it raise [ValueError] before the detector is
    called. *)
Theorem fallback_detection_faces (env : Env) (eng : SwapEngine)
    (frame : ndarray) (w : World) :
  face_analyzer eng = false ->
  (forall faces,
     (detect_faces env eng frame w).1 = Ok faces ->
     Forall (fun f => length (bbox f) = 4%nat /\ landmark f = None /\
                      embedding f = None) faces) /\
  (face_detector eng = false ->
   forall faces,
     (detect_faces env eng frame w).1 = Ok faces ->
     exists rects,
       haar_detect env (tick w) frame = Ok rects /\
       map bbox faces
       = map (fun r => let '(x, y, rw, rh) := r in [x; y; x + rw; y + rh])
             rects /\
       Forall (fun f => det_score f = 1%Q) faces) /\
  (face_detector eng = true -> (ndim frame < 2)%nat ->
   detect_faces env eng frame w = (Raise ValueError, w)).
Proof.
  intros Hna. unfold detect_faces. rewrite Hna.
  split; [|split].
  - intros faces.
    destruct (face_detector eng).
    + destruct (shape frame) as [|h [|w0 rest]]; try discriminate.
      unfold_monad. cbn.
      destruct (dnn_forward env (tick w) frame) as [dets | e];
        [|discriminate].
      intros [= <-].
      eapply Forall_impl;
        [apply (dnn_faces_shape h w0 dets) | ].
      cbn. tauto.
    + unfold_monad. cbn.
      destruct (haar_detect env (tick w) frame) as [rects | e];
        [|discriminate].
      intros [= <-]. apply Forall_forall. intros f Hf.
      apply list_elem_of_In, in_map_iff in Hf.
      destruct Hf as ([[[x y] rw] rh] & <- & _). cbn. auto.
  - intros Hnd faces. rewrite Hnd. unfold_monad. cbn.
    destruct (haar_detect env (tick w) frame) as [rects | e];
      [|discriminate].
    intros [= <-]. exists rects. split; [reflexivity|]. split.
    + rewrite map_map. apply map_ext. intros [[[x y] rw] rh]. reflexivity.
    + apply Forall_forall. intros f Hf.
      apply list_elem_of_In, in_map_iff in Hf.
      destruct Hf as ([[[x y] rw] rh] & <- & _). reflexivity.
  - intros Hd Hnd. rewrite Hd. unfold ndim in Hnd.
    destruct (shape frame) as [|h [|w0 rest]]; cbn in Hnd;
      try reflexivity; lia.
Qed.

Lemma fallback_detection_witness :
  exists rects,
    haar_detect haar_env 0 sample_picture = Ok rects /\
    map bbox [haar_face (10, 20, 30, 40)]
    = map (fun r => let '(x, y, rw, rh) := r in [x; y; x + rw; y + rh]) rects /\
    Forall (fun f => det_score f = 1%Q) [haar_face (10, 20, 30, 40)].
Proof.
  exact (proj1 (proj2 (fallback_detection_faces haar_env haar_engine
                         sample_picture initial_world eq_refl))
               eq_refl [haar_face (10, 20, 30, 40)] eq_refl).
Defined.

(** ** Swapping *)

(** X18.  Without a swapper model [swap_face] returns the target frame
    at once: no detection runs and no collaborator is called.  With a
    swapper that has no [get] method the target frame is returned as
    well, once the faces are known. *)
Theorem swap_face_without_swapper_returns_target (env : Env)
    (eng : SwapEngine) (src tgt : ndarray) (w : World) :
  (forall sf tf,
     swapper eng = None ->
     swap_face env eng src tgt sf tf w = (Ok (Some tgt), w)) /\
  (forall sf tf,
     swapper eng = Some {| has_get := false |} ->
     swap_face env eng src tgt (Some sf) (Some tf) w = (Ok (Some tgt), w)).
Proof.
  split; intros sf tf Hsw; unfold swap_face; rewrite Hsw; reflexivity.
Qed.

Lemma swap_face_without_swapper_witness :
  swap_face quiet_env haar_engine sample_picture sample_picture None None
            initial_world
  = (Ok (Some sample_picture), initial_world).
Proof.
  exact (proj1 (swap_face_without_swapper_returns_target quiet_env
                  haar_engine sample_picture sample_picture initial_world)
               None None eq_refl).
Defined.

(** X19.  With both faces supplied, [swap_face] runs no detection and
    calls the swapper exactly once; it returns what the swapper
    returned, and the target frame when the swapper raised. *)
Theorem swap_face_with_faces_calls_swapper_once (env : Env)
    (eng : SwapEngine) (src tgt : ndarray) (sf tf : Face) (w : World) :
  swapper eng = Some {| has_get := true |} ->
  swap_face env eng src tgt (Some sf) (Some tf) w
  = (Ok match swapper_get env (tick w) tgt tf src sf with
        | Ok o => o
        | Raise _ => Some tgt
        end,
     swapped tgt tf src sf w).
Proof.
  intros Hsw. unfold swap_face. rewrite Hsw.
  unfold first_or_detect. unfold_monad. cbn.
  destruct (swapper_get env (tick w) tgt tf src sf); reflexivity.
Qed.

Lemma swap_face_with_faces_witness :
  (swap_face quiet_env insightface_engine sample_picture sample_picture
             (Some (analyzer_face face_a)) (Some (analyzer_face face_b))
             initial_world).1
  = Ok (Some sample_picture).
Proof.
  rewrite (swap_face_with_faces_calls_swapper_once quiet_env
             insightface_engine sample_picture sample_picture
             (analyzer_face face_a) (analyzer_face face_b) initial_world
             eq_refl).
  reflexivity.
Defined.

(** X20.  [swap_face] never makes up a frame: a result it returns is
    the target frame itself or the answer of a swapper call made on
    that target frame and that source frame. *)
Theorem swap_face_returns_target_or_swapper_answer (env : Env)
    (eng : SwapEngine) (src tgt : ndarray) (sf tf : option Face) (w : World)
    (o : option ndarray) :
  (swap_face env eng src tgt sf tf w).1 = Ok o ->
  o = Some tgt \/
  exists t tf' sf', swapper_get env t tgt tf' src sf' = Ok o.
Proof.
  unfold swap_face. destruct (swapper eng) as [sw|];
    [|intros [= <-]; left; reflexivity].
  unfold mbind at 1, M_bind at 1.
  destruct (first_or_detect env eng sf src w) as [[[f1|] | e] w1];
    [| intros [= <-]; left; reflexivity | discriminate].
  unfold mbind at 1, M_bind at 1.
  destruct (first_or_detect env eng tf tgt w1) as [[[f2|] | e] w2];
    [| intros [= <-]; left; reflexivity | discriminate].
  destruct (has_get sw); unfold_monad; cbn;
    [|intros [= <-]; left; reflexivity].
  destruct (swapper_get env (tick w2) tgt f2 src f1) as [o' | e] eqn:E;
    cbn; intros [= <-]; [right; eauto | left; reflexivity].
Qed.

Lemma swap_face_returns_witness :
  Some sample_picture = Some sample_picture \/
  exists t tf' sf',
    swapper_get quiet_env t sample_picture tf' sample_picture sf'
    = Ok (Some sample_picture).
Proof.
  exact (swap_face_returns_target_or_swapper_answer quiet_env
           insightface_engine sample_picture sample_picture
           (Some (analyzer_face face_a)) (Some (analyzer_face face_b))
           initial_world (Some sample_picture) eq_refl).
Defined.

(** ** Model loading *)

Lemma load_fallback_fields ld self eng :
  _load_fallback ld self = Ok eng ->
  face_analyzer eng = face_analyzer self /\ swapper eng = swapper self.
Proof.
  unfold _load_fallback.
  destruct (fallback_files_exist ld);
    [destruct (readNetFromCaffe ld); [|discriminate]|];
    intros [= <-]; split; reflexivity.
Qed.

(** X21.  An engine of a model type other than ["insightface"] and
    ["deepfacelive"] cannot be built: loading raises [ValueError].  An
    engine of type ["deepfacelive"], and an engine of type
    ["insightface"] on a machine where the import of the library
    fails, load the fallback detector only: they have neither analyzer
    nor swapper, so that [swap_face] returns every target frame
    unchanged without calling anything. *)
Theorem engines_without_swapper (ld : Loader) :
  (forall model_type,
     model_type <> "insightface" -> model_type <> "deepfacelive" ->
     load_engine ld model_type = Raise ValueError) /\
  (forall model_type eng,
     model_type = "deepfacelive" \/
     (model_type = "insightface" /\ import_insightface ld = ImportFailed) ->
     load_engine ld model_type = Ok eng ->
     face_analyzer eng = false /\ swapper eng = None /\
     forall env src tgt sf tf w,
       swap_face env eng src tgt sf tf w = (Ok (Some tgt), w)).
Proof.
  split.
  - intros model_type H1 H2. unfold load_engine.
    apply String.eqb_neq in H1, H2. rewrite H1, H2. reflexivity.
  - intros model_type eng Hcase Hload.
    assert (Hfields : face_analyzer eng = false /\ swapper eng = None).
    { destruct Hcase as [-> | [-> Himp]]; unfold load_engine in Hload;
        cbn in Hload.
      - unfold _load_deepfacelive in Hload.
        destruct (_load_fallback ld unloaded_engine) as [s | e] eqn:E.
        + injection Hload as <-.
          apply load_fallback_fields in E. exact E.
        + discriminate.
      - unfold _load_insightface, load_step in Hload. rewrite Himp in Hload.
        apply load_fallback_fields in Hload. exact Hload. }
    destruct Hfields as [Ha Hs]. repeat split; try assumption.
    intros. unfold swap_face. rewrite Hs. reflexivity.
Qed.

Lemma engines_without_swapper_witness :
  load_engine loaded_sample "inswapper" = Raise ValueError /\
  forall env src tgt sf tf w,
    swap_face env (set_face_detector true unloaded_engine) src tgt sf tf w
    = (Ok (Some tgt), w).
Proof.
  split.
  - apply (proj1 (engines_without_swapper loaded_sample) "inswapper");
      discriminate.
  - exact (proj2 (proj2 (proj2 (engines_without_swapper loaded_sample)
                           "deepfacelive"
                           (set_face_detector true unloaded_engine)
                           (or_introl eq_refl) eq_refl))).
Defined.

(** X22.  An ["insightface"] engine whose loading steps all succeed
    has the analyzer and the swapper that [get_model] returned.  When
    [get_model] returns no model, loading succeeds without swapper on
    the CPU, and raises [AttributeError] on CUDA, where the missing
    swapper is prepared. *)
Theorem insightface_engine_loading (ld : Loader) :
  import_insightface ld = Loaded tt ->
  face_analysis ld = Loaded tt ->
  analyzer_prepare ld = Loaded tt ->
  (forall sw,
     get_model ld = Loaded (Some sw) ->
     cuda_available ld = false \/ swapper_prepare ld = Loaded tt ->
     load_engine ld "insightface"
     = Ok {| face_analyzer := true; face_detector := false;
             swapper := Some sw |}) /\
  (get_model ld = Loaded None ->
   load_engine ld "insightface"
   = if cuda_available ld then Raise AttributeError
     else Ok {| face_analyzer := true; face_detector := false;
                swapper := None |}).
Proof.
  intros H1 H2 H3. unfold load_engine. cbn [String.eqb Ascii.eqb Bool.eqb].
  unfold _load_insightface, load_step. rewrite H1, H2, H3. split.
  - intros sw Hg Hcase. rewrite Hg.
    destruct (cuda_available ld); [|reflexivity].
    destruct Hcase as [|Hp]; [discriminate|]. rewrite Hp. reflexivity.
  - intros Hg. rewrite Hg. destruct (cuda_available ld); reflexivity.
Qed.

Lemma insightface_engine_loading_witness :
  load_engine loaded_sample "insightface" = Ok insightface_engine.
Proof.
  exact (proj1 (insightface_engine_loading loaded_sample
                  eq_refl eq_refl eq_refl)
               {| has_get := true |} eq_refl (or_introl eq_refl)).
Defined.

(** ** Colour order and tensor layout *)

Lemma swap_rb_involutive {A} : forall n (l : list A),
  length l = (3 * n)%nat -> swap_rb (swap_rb l) = l.
Proof.
  induction n as [|n IH]; intros l Hl.
  - destruct l; [reflexivity | discriminate].
  - destruct l as [|r [|g [|b l']]]; cbn in Hl; try lia.
    cbn. rewrite IH by lia. reflexivity.
Qed.

Lemma swap_rb_length {A} : forall n (l : list A),
  length l = (3 * n)%nat -> length (swap_rb l) = length l.
Proof.
  induction n as [|n IH]; intros l Hl.
  - destruct l; [reflexivity | discriminate].
  - destruct l as [|r [|g [|b l']]]; cbn in Hl; try lia.
    cbn. rewrite IH by lia. reflexivity.
Qed.

Lemma cvtColor_rb_ok src code out :
  cvtColor_rb src code = Ok out ->
  exists h w,
    shape src = [h; w; 3%nat] /\ size src <> 0%nat /\
    out = {| shape := [h; w; 3%nat];
             data := map_samples (@swap_rb) (data src) |} /\
    (forall l, data src <> I64 l).
Proof.
  unfold cvtColor_rb.
  destruct (size src =? 0)%nat eqn:Esz; [discriminate|].
  apply Nat.eqb_neq in Esz.
  destruct (data src) as [l | l | l] eqn:Ed; try discriminate;
    destruct (shape src) as [|h [|w [|[|[|[|[|c]]]] [|? ?]]]];
    try discriminate; intros [= <-]; exists h, w;
    repeat split; auto; discriminate.
Qed.

Lemma three_channels_shape frame :
  three_channels frame = true -> exists h w, shape frame = [h; w; 3%nat].
Proof.
  unfold three_channels, ndim. intros H. apply andb_true_iff in H.
  destruct H as [Hn Hc]. apply Nat.eqb_eq in Hn.
  destruct (shape frame) as [|h [|w [|c [|? ?]]]]; try discriminate.
  cbn in Hc. apply Nat.eqb_eq in Hc. subst c. eauto.
Qed.

(** X23.  Converting a well-formed frame from RGB to BGR and back
    gives the frame again, whenever the first conversion succeeds; so
    does BGR to RGB and back.  A frame that does not have exactly three
    channels is returned as it is by both conversions, and a
    three-channel frame without pixels makes them raise. *)
Theorem colour_order_round_trip (frame : ndarray) :
  (forall out, well_formed frame ->
     rgb_to_bgr frame = Ok out ->
     bgr_to_rgb out = Ok frame /\ shape out = shape frame) /\
  (forall out, well_formed frame ->
     bgr_to_rgb frame = Ok out ->
     rgb_to_bgr out = Ok frame /\ shape out = shape frame) /\
  (three_channels frame = false ->
   rgb_to_bgr frame = Ok frame /\ bgr_to_rgb frame = Ok frame) /\
  (three_channels frame = true -> size frame = 0%nat ->
   rgb_to_bgr frame = Raise cv2_error /\ bgr_to_rgb frame = Raise cv2_error).
Proof.
  assert (Hback : forall code code' out,
    well_formed frame -> three_channels frame = true ->
    cvtColor_rb frame code = Ok out ->
    three_channels out = true /\ cvtColor_rb out code' = Ok frame /\
    shape out = shape frame).
  { intros code code' out Hwf Htc Hcv.
    destruct (cvtColor_rb_ok _ _ _ Hcv) as (h & w & Hsh & Hsz & -> & Hd).
    unfold well_formed in Hwf. unfold size in Hwf, Hsz.
    rewrite Hsh in Hwf, Hsz. cbn in Hwf, Hsz.
    destruct frame as [shp d]. cbn in Hsh, Hwf, Hd. subst shp.
    split; [reflexivity|]. split; [|reflexivity].
    unfold cvtColor_rb, size. cbn [shape data fold_right].
    destruct (h * (w * (3 * 1)) =? 0)%nat eqn:E;
      [apply Nat.eqb_eq in E; lia|].
    destruct d as [l | l | l]; cbn in Hwf |- *;
      try (exfalso; eapply Hd; reflexivity);
      rewrite (swap_rb_involutive (h * w)) by lia; reflexivity. }
  split; [|split; [|split]].
  - intros out Hwf. unfold rgb_to_bgr, bgr_to_rgb.
    destruct (three_channels frame) eqn:Htc.
    + intros Hcv.
      destruct (Hback _ COLOR_BGR2RGB _ Hwf eq_refl Hcv) as (-> & H & Hs).
      split; assumption.
    + intros [= <-]. rewrite Htc. split; reflexivity.
  - intros out Hwf. unfold rgb_to_bgr, bgr_to_rgb.
    destruct (three_channels frame) eqn:Htc.
    + intros Hcv.
      destruct (Hback _ COLOR_RGB2BGR _ Hwf eq_refl Hcv) as (-> & H & Hs).
      split; assumption.
    + intros [= <-]. rewrite Htc. split; reflexivity.
  - intros Htc. unfold rgb_to_bgr, bgr_to_rgb. rewrite Htc.
    split; reflexivity.
  - intros Htc Hsz. unfold rgb_to_bgr, bgr_to_rgb, cvtColor_rb.
    rewrite Htc, Hsz. split; reflexivity.
Qed.

Lemma colour_order_witness :
  rgb_to_bgr sample_picture
  = Ok {| shape := [1; 2; 3]%nat; data := U8 [30; 20; 10; 60; 50; 40] |} /\
  bgr_to_rgb {| shape := [1; 2; 3]%nat; data := U8 [30; 20; 10; 60; 50; 40] |}
  = Ok sample_picture /\
  rgb_to_bgr (planes gray_frame) = Ok (planes gray_frame).
Proof.
  split; [reflexivity|]. split.
  - exact (proj1 (proj1 (colour_order_round_trip sample_picture)
                        _ eq_refl eq_refl)).
  - exact (proj1 (proj1 (proj2 (proj2 (colour_order_round_trip
                                         (planes gray_frame)))) eq_refl)).
Defined.

Lemma nth_gather {A} (d : A) n f l j :
  (j < n)%nat -> nth j (gather d n f l) d = nth (f j) l d.
Proof.
  intros Hj. unfold gather.
  rewrite (nth_indep _ d (nth (f 0%nat) l d))
    by (rewrite length_map, length_seq; exact Hj).
  rewrite (map_nth (fun i => nth (f i) l d) (seq 0 n) 0%nat j).
  rewrite seq_nth by exact Hj. reflexivity.
Qed.

Lemma gather_length {A} (d : A) n f l : length (gather d n f l) = n.
Proof. unfold gather. rewrite length_map, length_seq. reflexivity. Qed.

Lemma gather_gather {A} (d : A) n f g l :
  length l = n ->
  (forall j, j < n -> g j < n)%nat ->
  (forall j, j < n -> f (g j) = j)%nat ->
  gather d n g (gather d n f l) = l.
Proof.
  intros Hl Hg Hfg. apply (nth_ext _ _ d d).
  - rewrite gather_length. symmetry. exact Hl.
  - intros j Hj. rewrite gather_length in Hj.
    rewrite nth_gather by exact Hj.
    rewrite nth_gather by (apply Hg; exact Hj).
    rewrite Hfg by exact Hj. reflexivity.
Qed.

Lemma split_index (a b j : nat) :
  (j < a * b)%nat ->
  (b <> 0 /\ j / b < a /\ j mod b < b /\ j = (j / b) * b + j mod b)%nat.
Proof.
  intros Hj. assert (Hb : b <> 0%nat) by (intros ->; lia).
  repeat split; [exact Hb | | apply Nat.mod_upper_bound; exact Hb |].
  - apply Nat.Div0.div_lt_upper_bound. lia.
  - rewrite (Nat.div_mod_eq j b) at 1. lia.
Qed.

Lemma join_index (b q r : nat) :
  (r < b)%nat -> ((q * b + r) / b = q /\ (q * b + r) mod b = r)%nat.
Proof.
  intros Hr. assert (Hb : b <> 0%nat) by lia. split.
  - rewrite Nat.add_comm, Nat.div_add by exact Hb.
    rewrite Nat.div_small by exact Hr. reflexivity.
  - rewrite Nat.add_comm, Nat.Div0.mod_add.
    apply Nat.mod_small. exact Hr.
Qed.

(** The two index maps of the transpositions undo each other. *)
Lemma transpose_indices (p c : nat) j :
  (j < p * c)%nat ->
  let to_tensor i := ((i mod p) * c + i / p)%nat in
  let to_frame i := ((i mod c) * p + i / c)%nat in
  (to_frame j < p * c /\ to_tensor (to_frame j) = j)%nat.
Proof.
  intros Hj to_tensor to_frame. subst to_tensor to_frame. cbn beta.
  destruct (split_index p c j Hj) as (Hc & Hq & Hr & Hjeq).
  set (q := (j / c)%nat) in *. set (r := (j mod c)%nat) in *.
  destruct (join_index p r q Hq) as [Hdiv Hmod].
  split; [nia|]. rewrite Hdiv, Hmod. lia.
Qed.

Lemma transpose_indices' (p c : nat) i :
  (i < c * p)%nat ->
  let to_tensor i := ((i mod p) * c + i / p)%nat in
  let to_frame i := ((i mod c) * p + i / c)%nat in
  (to_tensor i < c * p /\ to_frame (to_tensor i) = i)%nat.
Proof.
  intros Hi to_tensor to_frame. subst to_tensor to_frame. cbn beta.
  destruct (split_index c p i Hi) as (Hp & Hq & Hr & Hieq).
  set (q := (i / p)%nat) in *. set (r := (i mod p)%nat) in *.
  destruct (join_index c r q Hq) as [Hdiv Hmod].
  split; [nia|]. rewrite Hdiv, Hmod. lia.
Qed.

Lemma gather_samples_round n f g s :
  samples_length s = n ->
  (forall j, j < n -> g j < n)%nat ->
  (forall j, j < n -> f (g j) = j)%nat ->
  gather_samples n g (gather_samples n f s) = s.
Proof.
  intros Hl Hg Hfg. destruct s as [l | l | l]; cbn in *;
    rewrite gather_gather by assumption; reflexivity.
Qed.

(** X24.  On a well-formed array, [tensor_to_frame] undoes
    [frame_to_tensor] and [frame_to_tensor] undoes [tensor_to_frame]:
    the layouts H x W x C and C x H x W are converted into each other
    without loss.  An array that does not have three dimensions is
    returned as it is by both. *)
Theorem tensor_layout_round_trip (frame : ndarray) :
  (well_formed frame ->
   tensor_to_frame (frame_to_tensor frame) = frame /\
   frame_to_tensor (tensor_to_frame frame) = frame) /\
  (forall h w c, shape frame = [h; w; c] ->
     shape (frame_to_tensor frame) = [c; h; w] /\
     shape (tensor_to_frame frame) = [w; c; h]) /\
  (ndim frame <> 3%nat ->
   frame_to_tensor frame = frame /\ tensor_to_frame frame = frame).
Proof.
  destruct frame as [shp d]. unfold well_formed, size, ndim. cbn [shape data].
  split; [|split].
  - intros Hwf.
    destruct shp as [|a [|b [|c [|? ?]]]]; try (split; reflexivity).
    cbn in Hwf. unfold frame_to_tensor, tensor_to_frame. cbn [shape data].
    split; f_equal.
    + replace (c * a * b)%nat with (a * b * c)%nat by lia.
      apply gather_samples_round; [lia | |];
        intros j Hj; apply (transpose_indices (a * b) c j Hj).
    + replace (b * c * a)%nat with (a * b * c)%nat by lia.
      replace (a * b * c)%nat with (a * (b * c))%nat in * by lia.
      apply gather_samples_round; [lia | |];
        intros j Hj; apply (transpose_indices' (b * c) a j Hj).
  - intros h w c [= -> ]. split; reflexivity.
  - intros Hnd.
    destruct shp as [|a [|b [|c [|? ?]]]]; try (split; reflexivity).
    cbn in Hnd. lia.
Qed.

Lemma tensor_layout_witness :
  frame_to_tensor sample_picture
  = {| shape := [3; 1; 2]%nat; data := U8 [10; 40; 20; 50; 30; 60] |} /\
  tensor_to_frame (frame_to_tensor sample_picture) = sample_picture /\
  frame_to_tensor (planes gray_frame) = planes gray_frame.
Proof.
  split; [reflexivity|]. split.
  - exact (proj1 (proj1 (tensor_layout_round_trip sample_picture) eq_refl)).
  - apply (proj2 (proj2 (tensor_layout_round_trip (planes gray_frame)))).
    discriminate.
Defined.

(** ** Preprocessing and postprocessing once more *)

Lemma cvtColor_ok_shape src code out :
  cvtColor src code = Ok out -> exists h w, shape out = [h; w; 3%nat].
Proof.
  unfold cvtColor. destruct (size src =? 0)%nat; [discriminate|].
  destruct (data src); try discriminate; destruct code;
    destruct (shape src) as [|h [|w [|[|[|[|[|[|c]]]]] [|? ?]]]];
    try discriminate; intros [= <-]; eauto.
Qed.

Lemma preprocess_no_target env fp frame :
  target_size fp = None ->
  preprocess_frame env fp frame
  = if (ndim frame =? 2)%nat then cvtColor frame COLOR_GRAY2BGR
    else
      match shape frame !! 2%nat with
      | None => Raise IndexError
      | Some c =>
          if (c =? 4)%nat then cvtColor frame COLOR_BGRA2BGR else Ok frame
      end.
Proof. intros Hts. unfold preprocess_frame. rewrite Hts. reflexivity. Qed.

(** X25.  Without target size, preprocessing is idempotent: a frame it
    returned is returned unchanged when preprocessed again.  A frame
    with fewer than two dimensions makes it raise [IndexError], and a
    frame with three dimensions whose third extent is not 4 is returned
    as it is. *)
Theorem preprocess_frame_idempotent (env : Env) (fp : FrameProcessor)
    (frame : ndarray) :
  target_size fp = None ->
  (forall out, preprocess_frame env fp frame = Ok out ->
               preprocess_frame env fp out = Ok out) /\
  ((ndim frame < 2)%nat -> preprocess_frame env fp frame = Raise IndexError) /\
  (forall h w c, shape frame = [h; w; c] -> c <> 4%nat ->
                 preprocess_frame env fp frame = Ok frame).
Proof.
  intros Hts.
  assert (Hthree : forall a h w, shape a = [h; w; 3%nat] ->
                                 preprocess_frame env fp a = Ok a).
  { intros a h w Hsh. eapply preprocess_bgr24; eauto. }
  rewrite (preprocess_no_target env fp frame Hts). split; [|split].
  - intros out.
    destruct (ndim frame =? 2)%nat eqn:End.
    + intros Hcv. destruct (cvtColor_ok_shape _ _ _ Hcv) as (h & w & Hsh).
      eapply Hthree; eauto.
    + destruct (shape frame !! 2%nat) as [c|] eqn:Hc; [|discriminate].
      destruct (c =? 4)%nat eqn:E4.
      * intros Hcv. destruct (cvtColor_ok_shape _ _ _ Hcv) as (h & w & Hsh).
        eapply Hthree; eauto.
      * intros [= <-]. rewrite (preprocess_no_target env fp frame Hts).
        rewrite End, Hc, E4. reflexivity.
  - intros Hnd. unfold ndim in *.
    destruct (shape frame) as [|a [|b rest]]; cbn in Hnd |- *;
      try reflexivity; lia.
  - intros h w c Hsh Hc. unfold ndim. rewrite Hsh. cbn.
    apply Nat.eqb_neq in Hc. rewrite Hc. reflexivity.
Qed.

Lemma preprocess_frame_idempotent_witness :
  preprocess_frame quiet_env plain_processor
    {| shape := [1; 2; 3]%nat; data := U8 [5; 5; 5; 6; 6; 6] |}
  = Ok {| shape := [1; 2; 3]%nat; data := U8 [5; 5; 5; 6; 6; 6] |} /\
  preprocess_frame quiet_env plain_processor
    {| shape := [4]%nat; data := U8 [1; 2; 3; 4] |}
  = Raise IndexError.
Proof.
  split.
  - exact (proj1 (preprocess_frame_idempotent quiet_env plain_processor
                    (planes gray_frame) eq_refl) _ eq_refl).
  - apply (proj1 (proj2 (preprocess_frame_idempotent quiet_env plain_processor
                    {| shape := [4]%nat; data := U8 [1; 2; 3; 4] |} eq_refl))).
    unfold ndim. cbn. lia.
Defined.

Lemma black_frame_size : size black_frame <> 0%nat.
Proof. unfold size, black_frame, zeros. cbn [shape fold_right]. lia. Qed.

(** X26.  Postprocessing is idempotent: its result is always a
    non-empty uint8 array, which a second postprocessing leaves
    unchanged. *)
Theorem postprocess_frame_idempotent (frame : option ndarray) :
  postprocess_frame (Some (postprocess_frame frame)) = postprocess_frame frame /\
  size (postprocess_frame frame) <> 0%nat /\
  is_uint8 (postprocess_frame frame) = true.
Proof.
  assert (Hsz : size (postprocess_frame frame) <> 0%nat).
  { destruct frame as [f|]; cbn [postprocess_frame];
      [|apply black_frame_size].
    destruct (size f =? 0)%nat eqn:E; [apply black_frame_size|].
    apply Nat.eqb_neq in E. exact E. }
  split; [|split; [exact Hsz|]].
  - apply postprocess_uint8; [apply uint8_postprocess | exact Hsz].
  - destruct (uint8_postprocess frame) as (l & Hd & _).
    unfold is_uint8. rewrite Hd. reflexivity.
Qed.

(** ** Counting frames, and a failing detector *)

Lemma finish_frame_count frame o st :
  frame_count (finish frame o st).2.1
  = (frame_count st.1 + if is_ok (finish frame o st).1 then 1 else 0)%nat.
Proof.
  unfold finish. destruct (from_ndarray (postprocess_frame o)); cbn; lia.
Qed.

Lemma recv_frame_count env frame tr w :
  frame_count (recv env frame (tr, w)).2.1
  = (frame_count tr + if is_ok (recv env frame (tr, w)).1 then 1 else 0)%nat.
Proof.
  rewrite recv_eq.
  destruct (preprocess_frame env (track_frame_processor tr) (planes frame))
    as [img | e]; [|cbn; lia].
  cbn zeta. rewrite capture_eq.
  assert (Hfin : forall tr' w', frame_count tr' = frame_count tr ->
    let r := (let s := swap_step env img (tr', w') in
              match s.1 with
              | Raise e => (Raise e, s.2)
              | Ok o => finish frame o s.2
              end) in
    frame_count r.2.1 = (frame_count tr + if is_ok r.1 then 1 else 0)%nat).
  { intros tr' w' Hfc. cbn zeta. rewrite swap_step_eq.
    destruct (source_face tr') as [f|]; cbn zeta; cbn [fst snd].
    - destruct (swap_face env _ img img (Some f) None w').1;
        rewrite finish_frame_count; cbn [fst snd]; rewrite Hfc; reflexivity.
    - rewrite finish_frame_count. cbn [fst snd]. rewrite Hfc. reflexivity. }
  destruct (source_face tr) as [f0|]; [apply Hfin; reflexivity|].
  cbn zeta.
  destruct (detect_faces env (track_swap_engine tr) img w)
    as [[[|f l] | e] w1]; cbn [fst snd];
    [apply Hfin; reflexivity | apply Hfin; reflexivity | cbn; lia].
Qed.

(** X27.  [frame_count] counts the frames delivered: over any run of
    frames it grows by exactly the number of calls of [recv] that
    returned a frame, and a call that raised leaves it unchanged. *)
Theorem frame_count_counts_delivered_frames (env : Env)
    (frames : list VideoFrame) (st : ProcessedVideoTrack * World) :
  frame_count (recv_all env frames st).2.1
  = (frame_count st.1 + ok_count (recv_all env frames st).1)%nat.
Proof.
  revert st. induction frames as [|frame rest IH]; intros st.
  - cbn. unfold ok_count. cbn. lia.
  - rewrite recv_all_cons. cbn [fst snd]. rewrite IH.
    destruct st as [tr w]. rewrite recv_frame_count. cbn [fst].
    unfold ok_count. rewrite filter_cons.
    destruct (recv env frame (tr, w)).1; cbn [is_ok];
      [rewrite decide_True by reflexivity
      |rewrite decide_False by discriminate]; cbn [length]; lia.
Qed.

(** X28.  While the cache is empty, an exception of the detector is
    not absorbed: [recv] raises it, no frame is delivered, and the
    track is left as it was, with an empty cache and the same frame
    count. *)
Theorem capture_detection_failure_propagates (env : Env) (frame : VideoFrame)
    (tr : ProcessedVideoTrack) (w : World) (img : ndarray) (e : exn) :
  source_face tr = None ->
  preprocess_frame env (track_frame_processor tr) (planes frame) = Ok img ->
  (detect_faces env (track_swap_engine tr) img w).1 = Raise e ->
  recv env frame (tr, w)
  = (Raise e, (tr, (detect_faces env (track_swap_engine tr) img w).2)).
Proof.
  intros Hsf Hpre Hdet.
  rewrite recv_eq, Hpre. cbn zeta. rewrite capture_eq, Hsf. cbn zeta.
  rewrite Hdet. reflexivity.
Qed.

Lemma capture_detection_failure_witness :
  recv failing_detector_env sample_frame (fresh_track, initial_world)
  = (Raise (CollaboratorError 2),
     (fresh_track,
      {| clock := 0; tick := 1;
         trace := [EvAnalyzerGet sample_picture] |})).
Proof.
  exact (capture_detection_failure_propagates failing_detector_env
           sample_frame fresh_track initial_world sample_picture
           (CollaboratorError 2) eq_refl eq_refl eq_refl).
Defined.
